(** * InkyPi APOD plugin: a shallow embedding of [src/plugins/apod/apod.py]

    The plugin fetches NASA's Astronomy Picture of the Day, optionally fits it
    onto a canvas of the display's resolution and burns a caption in.  The
    development below follows the Python source function by function:

    - the Pillow operations the plugin calls ([copy], [thumbnail], [new],
      [paste], [convert], [crop], [getdata]) on a store of image objects;
    - [Apod.resize_to_fit], [Apod.fit_with_background] and
      [Apod.average_border_color];
    - the date selection, caption derivation and the network protocol of
      [Apod.generate_image]. *)

From Stdlib Require Import ZArith QArith Qround Qabs Lia String Ascii List.
From Stdlib.Strings Require Import Byte.
From stdpp Require Import gmap strings list fin_maps list_numbers.

Local Open Scope Z_scope.

(** ** Python results *)

(** The exceptions the modelled code can raise. *)
Inductive exn : Type :=
| ZeroDivisionError
| ValueError
| TypeError
| OverflowError
| RequestException
| RuntimeError (msg : string)
| DanglingReference.

Inductive Result (A : Type) : Type :=
| Ok (a : A)
| Raise (e : exn).
Arguments Ok {A} a.
Arguments Raise {A} e.

(** ** Pillow's thumbnail geometry

    [Image.thumbnail] computes the new size in [preserve_aspect_ratio] with
    Python floats.  The embedding computes on exact rationals.  For sides
    below 2^25 two quotients of sides that differ are further apart than a
    double's rounding, so the floating comparison of [x / y] with the aspect
    decides as the exact one; and whichever of floor and ceiling the key
    prefers, the statements below hold for both. *)

(** [max(min(math.floor(number), math.ceil(number), key=key), 1)]: Python's
    [min] keeps the first of two arguments with equal keys. *)
Definition round_aspect (number : Q) (key : Z -> Q) : Z :=
  let lo := Qfloor number in
  let hi := Qceiling number in
  Z.max (if Qle_bool (key lo) (key hi) then lo else hi) 1.

(** [preserve_aspect_ratio()] of an image of size [w]x[h] for the requested
    size [(x, y)]: [None] when the image already fits. *)
Definition preserve_aspect_ratio (w h x y : Z) : Result (option (Z * Z)) :=
  if (w <=? x) && (h <=? y) then Ok None
  else if h =? 0 then Raise ZeroDivisionError
  else
    let aspect := (inject_Z w / inject_Z h)%Q in
    if y =? 0 then Raise ZeroDivisionError
    else if Qle_bool aspect (inject_Z x / inject_Z y)%Q then
      Ok (Some (round_aspect (inject_Z y * aspect)%Q
                  (fun n => Qabs (aspect - inject_Z n / inject_Z y)%Q), y))
    else if w =? 0 then Raise ZeroDivisionError
    else
      Ok (Some (x, round_aspect (inject_Z x / aspect)%Q
                  (fun n => if n =? 0 then 0%Q
                            else Qabs (aspect - inject_Z x / inject_Z n)%Q))).

(** ** Rasters

    A pixel of mode "RGB" is three 8-bit bands.  A decoded file may be in any
    mode (L, P, RGBA, CMYK, ...): its pixel values are kept abstract, together
    with the two Pillow kernels the plugin reaches and whose arithmetic is
    outside this development. *)

Definition RGB : Type := (byte * byte * byte)%type.

Inductive Pixel (N : Type) : Type :=
| Native (p : N)
| Rgb (c : RGB).
Arguments Native {N} p.
Arguments Rgb {N} c.

Class Pillow : Type := {
  (** the pixel values of the decoded file's mode *)
  NativePixel : Type;
  (** what [convert("RGB")] makes of one such pixel *)
  to_rgb : NativePixel -> RGB;
  (** [Image.resize(size, LANCZOS)]: the pixel at [(x, y)] of the image of
      size [src_size] with the given raster, resampled to [size] *)
  resample : Z * Z -> (Z -> Z -> Pixel NativePixel) -> Z * Z ->
             Z -> Z -> Pixel NativePixel
}.

(** [Image.size] and the raster, read at column [x] and row [y]. *)
Record Image `{Pillow} : Type := mkImage {
  width : Z;
  height : Z;
  getpixel : Z -> Z -> Pixel NativePixel
}.

Arguments mkImage {_} _ _ _.

Definition size `{Pillow} (im : Image) : Z * Z := (width im, height im).

Definition rgb_of `{Pillow} (p : Pixel NativePixel) : RGB :=
  match p with
  | Native n => to_rgb n
  | Rgb c => c
  end.

Definition band (b : byte) : Z := Z.of_N (Byte.to_N b).

(** The tuple of ints [getdata()] yields for a pixel of an RGB image. *)
Definition rgb_ints (c : RGB) : Z * Z * Z :=
  let '(r, g, b) := c in (band r, band g, band b).

(** Pillow clips a colour band to 8 bits when it makes the ink. *)
Definition clip8 (v : Z) : byte :=
  match Byte.of_N (Z.to_N (Z.max 0 (Z.min 255 v))) with
  | Some b => b
  | None => x00
  end.

Definition ink (color : Z * Z * Z) : RGB :=
  let '(r, g, b) := color in (clip8 r, clip8 g, clip8 b).

(** A crop box [(left, upper, right, lower)]. *)
Definition Box : Type := (Z * Z * Z * Z)%type.

Definition inside `{Pillow} (im : Image) (x y : Z) : bool :=
  (0 <=? x) && (x <? width im) && (0 <=? y) && (y <? height im).

(** [Image.convert("RGB")]: a new image, the argument is left as it is. *)
Definition convert_RGB `{Pillow} (im : Image) : Image :=
  {| width := width im; height := height im;
     getpixel := fun x y => Rgb (rgb_of (getpixel im x y)) |}.

(** [Image.crop(box)] of an RGB image: a new image of the box's size; what
    lies outside the source is filled with zero bands. *)
Definition crop `{Pillow} (im : Image) (box : Box) : Image :=
  let '(x0, y0, x1, y1) := box in
  {| width := x1 - x0; height := y1 - y0;
     getpixel := fun x y =>
       if inside im (x + x0) (y + y0)
       then getpixel im (x + x0) (y + y0)
       else Rgb (x00, x00, x00) |}.

(** [Image.getdata()] of an RGB image: the pixels row by row. *)
Definition getdata `{Pillow} (im : Image) : list (Z * Z * Z) :=
  y ← seqZ 0 (height im);
  x ← seqZ 0 (width im);
  [rgb_ints (rgb_of (getpixel im x y))].

(** [Image.resize(size, LANCZOS, reducing_gap=2.0)] as [thumbnail] calls it:
    Pillow refuses a side below one pixel. *)
Definition Image_resize `{Pillow} (im : Image) (sz : Z * Z) : Result Image :=
  if (sz.1 <? 1) || (sz.2 <? 1) then Raise ValueError
  else Ok {| width := sz.1; height := sz.2;
             getpixel := resample (size im) (getpixel im) sz |}.

(** ** The store of image objects and the requests sent

    Python passes images by reference and [thumbnail], [paste] and the text
    drawing change them in place: images live in a store, at locations.  The
    state also logs the HTTP requests that were sent, in order. *)

Definition loc : Type := positive.

Record Request : Type := mkRequest {
  req_url : option string;
  req_params : gmap string string
}.

Record State `{Pillow} : Type := mkState {
  heap : gmap loc Image;
  sent : list Request
}.

Arguments mkState {_} _ _.

Definition M `{Pillow} (A : Type) : Type := State -> Result A * State.

Definition ret `{Pillow} {A} (a : A) : M A := fun s => (Ok a, s).

Definition raise `{Pillow} {A} (e : exn) : M A := fun s => (Raise e, s).

Definition bind `{Pillow} {A B} (m : M A) (k : A -> M B) : M B :=
  fun s =>
    match m s with
    | (Ok a, s') => k a s'
    | (Raise e, s') => (Raise e, s')
    end.

Definition lift `{Pillow} {A} (r : Result A) : M A := fun s => (r, s).

Declare Scope py_scope.
Delimit Scope py_scope with py.
Notation "'do' x <- m ; k" := (bind m (fun x => k))
  (at level 10, x name, m at level 100, k at level 200) : py_scope.
Notation "m ;; k" := (bind m (fun _ => k))
  (at level 100, k at level 200, right associativity) : py_scope.
Local Open Scope py_scope.

Definition deref `{Pillow} (l : loc) : M Image :=
  fun s =>
    match heap s !! l with
    | Some im => (Ok im, s)
    | None => (Raise DanglingReference, s)
    end.

Definition alloc `{Pillow} (im : Image) : M loc :=
  fun s =>
    let l := fresh (dom (heap s)) in
    (Ok l, {| heap := <[l := im]> (heap s); sent := sent s |}).

Definition store `{Pillow} (l : loc) (im : Image) : M unit :=
  fun s => (Ok tt, {| heap := <[l := im]> (heap s); sent := sent s |}).

(** [Image.copy()] *)
Definition Image_copy `{Pillow} (l : loc) : M loc :=
  do im <- deref l; alloc im.

(** [Image.thumbnail(size, LANCZOS)] on a loaded image: in place. *)
Definition Image_thumbnail `{Pillow} (l : loc) (sz : Z * Z) : M unit :=
  do im <- deref l;
  do r <- lift (preserve_aspect_ratio (width im) (height im) sz.1 sz.2);
  match r with
  | None => ret tt
  | Some sz' =>
      if decide (size im = sz') then ret tt
      else do im' <- lift (Image_resize im sz'); store l im'
  end.

(** [Image.new("RGB", size, color)] *)
Definition Image_new_RGB `{Pillow} (sz : Z * Z) (color : Z * Z * Z) : M loc :=
  if (sz.1 <? 0) || (sz.2 <? 0) then raise ValueError
  else alloc {| width := sz.1; height := sz.2;
                getpixel := fun _ _ => Rgb (ink color) |}.

(** [canvas.paste(im, (x, y))] into an RGB canvas: [im] is converted to the
    canvas' mode and copied into the box of its size at [(x, y)]. *)
Definition Image_paste `{Pillow} (canvas im : loc) (at_ : Z * Z) : M unit :=
  do c <- deref canvas;
  do i <- deref im;
  store canvas
    {| width := width c; height := height c;
       getpixel := fun x y =>
         if inside i (x - at_.1) (y - at_.2)
         then Rgb (rgb_of (getpixel i (x - at_.1) (y - at_.2)))
         else getpixel c x y |}.

(** ** [Apod.resize_to_fit] *)
Definition resize_to_fit `{Pillow} (img : loc) (target_size : Z * Z) : M loc :=
  let '(target_w, target_h) := target_size in
  do img <- Image_copy img;
  Image_thumbnail img (target_w, target_h);;
  ret img.

(** ** [Apod.fit_with_background] *)
Definition fit_with_background `{Pillow}
    (img : loc) (target_size : Z * Z) (background : Z * Z * Z) : M loc :=
  do img <- resize_to_fit img target_size;
  do canvas <- Image_new_RGB target_size background;
  do im <- deref img;
  let x := (target_size.1 - width im) / 2 in
  let y := (target_size.2 - height im) / 2 in
  Image_paste canvas img (x, y);;
  ret canvas.

(** ** [Apod.average_border_color] *)

(** The boxes the two loops pass to [img.crop], in the order of the calls. *)
Definition border_crops (w h border_px : Z) : list Box :=
  (y ← seqZ 0 border_px; [(0, y, w, y + 1); (0, h - y - 1, w, h - y)]) ++
  (x ← seqZ 0 border_px; [(x, 0, x + 1, h); (w - x - 1, 0, w - x, h)]).

Definition sum_band (f : Z * Z * Z -> Z) (pixels : list (Z * Z * Z)) : Z :=
  foldr (fun p acc => f p + acc) 0 pixels.

(** [np.mean(pixels, axis=0)]: the mean of each band, here as an exact
    rational (numpy sums the integers exactly in a double and divides by the
    count).  An empty list has no band to average. *)
Definition np_mean_axis0 (pixels : list (Z * Z * Z)) : Result (Q * Q * Q) :=
  match pixels with
  | [] => Raise TypeError
  | _ =>
      let n := inject_Z (Z.of_nat (length pixels)) in
      Ok ((inject_Z (sum_band (fun p => p.1.1) pixels) / n)%Q,
          (inject_Z (sum_band (fun p => p.1.2) pixels) / n)%Q,
          (inject_Z (sum_band (fun p => p.2) pixels) / n)%Q)
  end.

(** [int(x)] of a float: truncation toward zero. *)
Definition py_int (q : Q) : Z :=
  if Qle_bool 0 q then Qfloor q else Qceiling q.

Definition average_border_color `{Pillow} (img : Image) (border_px : Z)
  : Result (Z * Z * Z) :=
  let img := convert_RGB img in
  let '(w, h) := size img in
  let pixels := b ← border_crops w h border_px; getdata (crop img b) in
  match np_mean_axis0 pixels with
  | Ok (r, g, b) => Ok (py_int r, py_int g, py_int b)
  | Raise e => Raise e
  end.

(** ** Dates, as Python's [datetime] computes them *)

Record date : Type := mkDate { year : Z; month : Z; day : Z }.

(** A [datetime]: the date and the microseconds since midnight. *)
Record datetime : Type := mkDatetime { dt_date : date; dt_micros : Z }.

Definition is_leap (y : Z) : bool :=
  (y mod 4 =? 0) && (negb (y mod 100 =? 0) || (y mod 400 =? 0)).

Definition days_before_year (y : Z) : Z :=
  let y := y - 1 in y * 365 + y / 4 - y / 100 + y / 400.

Definition DAYS_IN_MONTH (m : Z) : Z :=
  nth (Z.to_nat m) [-1; 31; 28; 31; 30; 31; 30; 31; 31; 30; 31; 30; 31] 0.

Definition DAYS_BEFORE_MONTH (m : Z) : Z :=
  nth (Z.to_nat m) [-1; 0; 31; 59; 90; 120; 151; 181; 212; 243; 273; 304; 334] 0.

Definition days_in_month (y m : Z) : Z :=
  if (m =? 2) && is_leap y then 29 else DAYS_IN_MONTH m.

Definition days_before_month (y m : Z) : Z :=
  DAYS_BEFORE_MONTH m + (if (2 <? m) && is_leap y then 1 else 0).

Definition ymd2ord (d : date) : Z :=
  days_before_year (year d) + days_before_month (year d) (month d) + day d.

Definition DI400Y : Z := 146097.
Definition DI100Y : Z := 36524.
Definition DI4Y : Z := 1461.
Definition MAXORDINAL : Z := 3652059.

Definition ord2ymd (n : Z) : date :=
  let n := n - 1 in
  let n400 := n / DI400Y in
  let n := n mod DI400Y in
  let y := n400 * 400 + 1 in
  let n100 := n / DI100Y in
  let n := n mod DI100Y in
  let n4 := n / DI4Y in
  let n := n mod DI4Y in
  let n1 := n / 365 in
  let n := n mod 365 in
  let y := y + n100 * 100 + n4 * 4 + n1 in
  if (n1 =? 4) || (n100 =? 4) then mkDate (y - 1) 12 31
  else
    let leapyear := (n1 =? 3) && (negb (n4 =? 24) || (n100 =? 3)) in
    let m := Z.shiftr (n + 50) 5 in
    let preceding :=
      DAYS_BEFORE_MONTH m + (if (2 <? m) && leapyear then 1 else 0) in
    if n <? preceding then
      let m := m - 1 in
      let preceding :=
        preceding - (DAYS_IN_MONTH m + (if (m =? 2) && leapyear then 1 else 0)) in
      mkDate y m (n - preceding + 1)
    else mkDate y m (n - preceding + 1).

Definition DAY_MICROS : Z := 86400000000.

(** [(a - b).days]: the difference is normalised so that the part below a
    day is not negative. *)
Definition days_between (a b : datetime) : Z :=
  ((ymd2ord (dt_date a) - ymd2ord (dt_date b)) * DAY_MICROS
   + (dt_micros a - dt_micros b)) / DAY_MICROS.

(** [dt + timedelta(days=k)] *)
Definition add_days (dt : datetime) (k : Z) : Result datetime :=
  let n := ymd2ord (dt_date dt) + k in
  if (0 <? n) && (n <=? MAXORDINAL) then Ok (mkDatetime (ord2ymd n) (dt_micros dt))
  else Raise OverflowError.

Definition digit (n : Z) : ascii := ascii_of_N (48 + Z.to_N (n mod 10)).

(** [strftime("%Y-%m-%d")]: the year in four digits, month and day in two. *)
Definition strftime_Ymd (dt : datetime) : string :=
  let d := dt_date dt in
  String (digit (year d / 1000)) (String (digit (year d / 100))
  (String (digit (year d / 10)) (String (digit (year d))
  (String "-" (String (digit (month d / 10)) (String (digit (month d))
  (String "-" (String (digit (day d / 10)) (String (digit (day d))
  EmptyString))))))))).

(** [random.randint(a, b)]: [a] plus a draw below the width of the range,
    taken from the entropy the environment supplies. *)
Definition randint (entropy a b : Z) : Result Z :=
  if b <? a then Raise ValueError else Ok (a + entropy mod (b - a + 1)).

(** ** [Apod.generate_image] *)

Record Response : Type := mkResponse {
  status_code : Z;
  json : option (gmap string string);
  content : list byte
}.

(** What the plugin reads from its host and from the outside world. *)
Record World `{Pillow} : Type := mkWorld {
  (** [device_config.load_env_key] *)
  load_env_key : string -> option string;
  (** [device_config.config.get('resolution')] *)
  resolution : Z * Z;
  (** [datetime.today()] *)
  today : datetime;
  (** the random generator's draw *)
  entropy : Z;
  (** [requests.get]: no response when the transport raises *)
  http_get : Request -> option Response;
  (** [Image.open(BytesIO(content))]: no image when decoding raises *)
  image_open : list byte -> option Image;
  (** [draw.textbbox((0, 0), text, font=font)] with the font found *)
  textbbox : string -> Box;
  (** [draw.text(xy, text, font=font, fill="white")] *)
  draw_text : Image -> Z * Z -> string -> Image
}.

Arguments mkWorld {_} _ _ _ _ _ _ _ _.

(** A Python string is true when it is not empty. *)
Definition truthy (s : option string) : bool :=
  match s with
  | Some s => negb (String.eqb s "")
  | None => false
  end.

(** [a or b] on two optional strings *)
Definition py_or (a b : option string) : option string :=
  if truthy a then a else b.

Definition START : datetime := mkDatetime (mkDate 2015 1 1) 0.

(** Lines 37-46: the query parameters. *)
Definition query_params `{Pillow} (w : World) (settings : gmap string string)
    (api_key : string) : Result (gmap string string) :=
  let params : gmap string string := {[ "api_key" := api_key ]} in
  if decide (settings !! "randomizeApod" = Some "true") then
    let start := START in
    let end_ := today w in
    let delta_days := days_between end_ start in
    match randint (entropy w) 0 delta_days with
    | Raise e => Raise e
    | Ok k =>
        match add_days start k with
        | Raise e => Raise e
        | Ok random_date => Ok (<["date" := strftime_Ymd random_date]> params)
        end
    end
  else if truthy (settings !! "customDate") then
    Ok (<["date" := default "" (settings !! "customDate")]> params)
  else Ok params.

(** Lines 60-70: the caption. *)
Definition caption (data : gmap string string) : string :=
  let image_title := default "" (data !! "title") in
  let image_copyright := default "" (data !! "copyright") in
  if truthy (Some image_title) && truthy (Some image_copyright) then
    image_title +:+ " (© " +:+ image_copyright +:+ ")"
  else if truthy (Some image_title) then image_title
  else if truthy (Some image_copyright) then "© " +:+ image_copyright
  else "".

Definition APOD_URL : string := "https://api.nasa.gov/planetary/apod".

(** [requests.get]: the request is logged, then answered. *)
Definition requests_get `{Pillow} (w : World) (rq : Request) : M Response :=
  fun s =>
    let s' := {| heap := heap s; sent := sent s ++ [rq] |} in
    match http_get w rq with
    | Some r => (Ok r, s')
    | None => (Raise RequestException, s')
    end.

(** Lines 72-77: download and decode; any exception becomes the plugin's. *)
Definition load_image `{Pillow} (w : World) (image_url : option string) : M loc :=
  fun s =>
    match requests_get w (mkRequest image_url ∅) s with
    | (Ok img_data, s') =>
        match image_open w (content img_data) with
        | Some im => alloc im s'
        | None => (Raise (RuntimeError "Failed to load APOD image."), s')
        end
    | (Raise _, s') => (Raise (RuntimeError "Failed to load APOD image."), s')
    end.

(** The function itself; its log lines change nothing and are left out. *)
Definition generate_image `{Pillow} (w : World) (settings : gmap string string)
  : M loc :=
  let api_key := load_env_key w "NASA_SECRET" in
  if negb (truthy api_key) then raise (RuntimeError "NASA API Key not configured.")
  else
  do params <- lift (query_params w settings (default "" api_key));
  do response <- requests_get w (mkRequest (Some APOD_URL) params);
  if negb (status_code response =? 200)
  then raise (RuntimeError "Failed to retrieve NASA APOD.")
  else
  do data <- lift (match json response with
                   | Some d => Ok d
                   | None => Raise ValueError
                   end);
  if negb (bool_decide (data !! "media_type" = Some "image"))
  then raise (RuntimeError "APOD is not an image today.")
  else
  let image_url := py_or (data !! "hdurl") (data !! "url") in
  let text := caption data in
  do image <- load_image w image_url;
  do image <-
    (if bool_decide (settings !! "autoResize" = Some "true") then
       let inky_res := resolution w in
       do bg <-
         (if bool_decide (settings !! "autoBgColor" = Some "true") then
            do im <- deref image; lift (average_border_color im 10)
          else ret (0, 0, 0));
       fit_with_background image inky_res bg
     else ret image);
  do im <- deref image;
  let bbox := textbbox w text in
  let text_width := bbox.1.2 - bbox.1.1.1 in
  let text_height := bbox.2 - bbox.1.1.2 in
  let padding := 15 in
  let x := width im - text_width - padding in
  let y := height im - text_height - padding in
  store image (draw_text w im (x, y) text);;
  ret image.

(** ** Notions the statements below use *)

(** What [thumbnail] leaves in the copy: the size is decided by
    [preserve_aspect_ratio], the raster by [Image.resize]. *)
Definition thumbnail_result `{Pillow} (im : Image) (t : Z * Z) : Result Image :=
  match preserve_aspect_ratio (width im) (height im) t.1 t.2 with
  | Raise e => Raise e
  | Ok None => Ok im
  | Ok (Some sz') => if decide (size im = sz') then Ok im else Image_resize im sz'
  end.

(** The canvas around the resized image [r]: [r] at the centring offsets,
    the background elsewhere. *)
Definition composed `{Pillow} (r : Image) (t : Z * Z) (bg : Z * Z * Z) : Image :=
  let x := (t.1 - width r) / 2 in
  let y := (t.2 - height r) / 2 in
  {| width := t.1; height := t.2;
     getpixel := fun i j =>
       if inside r (i - x) (j - y)
       then Rgb (rgb_of (getpixel r (i - x) (j - y)))
       else Rgb (ink bg) |}.

(** What [preserve_aspect_ratio] answers for a proper image and a proper
    box: nothing to do, or the box's height with the matching width, or the
    box's width with the matching height. *)
Inductive fits (w h x y : Z) : option (Z * Z) -> Prop :=
| fits_already : w <= x -> h <= y -> fits w h x y None
| fits_by_height x' :
    ~ (w <= x /\ h <= y) -> 1 <= x' <= x -> x' <= w -> y <= h ->
    Z.abs (x' * h - y * w) < h ->
    fits w h x y (Some (x', y))
| fits_by_width y' :
    ~ (w <= x /\ h <= y) -> 1 <= y' <= y -> y' <= h -> x <= w ->
    Z.abs (y' * w - x * h) < w ->
    fits w h x y (Some (x, y')).

(** An image as a decoder delivers it: at least one pixel each way. *)
Definition proper `{Pillow} (im : Image) : Prop := 0 < width im /\ 0 < height im.

(** The colour of the pixel at [(x, y)], as [getdata] reports it. *)
Definition rgb_at `{Pillow} (im : Image) (x y : Z) : Z * Z * Z :=
  rgb_ints (rgb_of (getpixel im x y)).

Definition row `{Pillow} (im : Image) (y : Z) : list (Z * Z * Z) :=
  (fun x => rgb_at im x y) <$> seqZ 0 (width im).

Definition column `{Pillow} (im : Image) (x : Z) : list (Z * Z * Z) :=
  (fun y => rgb_at im x y) <$> seqZ 0 (height im).

(** The frame of thickness [b]: the top rows, the bottom rows, the left
    columns and the right columns, a corner pixel once for each band that
    covers it. *)
Definition border_pixels `{Pillow} (im : Image) (b : Z) : list (Z * Z * Z) :=
  (seqZ 0 b ≫= row im) ++ (seqZ (height im - b) b ≫= row im) ++
  (seqZ 0 b ≫= column im) ++ (seqZ (width im - b) b ≫= column im).

(** The list [pixels] that the two loops of [average_border_color] build. *)
Definition sampled_pixels `{Pillow} (im : Image) (border_px : Z) : list (Z * Z * Z) :=
  bx ← border_crops (width im) (height im) border_px;
  getdata (crop (convert_RGB im) bx).

(** A crop box that lies within an image of size [w]x[h]. *)
Definition in_range (w h : Z) (bx : Box) : Prop :=
  let '(x0, y0, x1, y1) := bx in
  0 <= x0 /\ x0 <= x1 /\ x1 <= w /\ 0 <= y0 /\ y0 <= y1 /\ y1 <= h.

(** A position within [b] pixels of an edge of an image of size [w]x[h]. *)
Definition in_border (w h b x y : Z) : Prop :=
  0 <= x < w /\ 0 <= y < h /\ (y < b \/ h - b <= y \/ x < b \/ w - b <= x).

Definition band_ok (p : Z * Z * Z) : Prop :=
  0 <= p.1.1 <= 255 /\ 0 <= p.1.2 <= 255 /\ 0 <= p.2 <= 255.

(** The mean of one band, rounded toward zero. *)
Definition trunc_mean (f : Z * Z * Z -> Z) (pixels : list (Z * Z * Z)) : Z :=
  Z.quot (sum_band f pixels) (Z.of_nat (length pixels)).

(** A date of the calendar, within the years [datetime] covers. *)
Definition valid_date (d : date) : Prop :=
  1 <= year d <= 9999 /\ 1 <= month d <= 12 /\
  1 <= day d <= days_in_month (year d) (month d).

Definition valid_dateb (d : date) : bool :=
  (1 <=? year d) && (year d <=? 9999) && (1 <=? month d) && (month d <=? 12) &&
  (1 <=? day d) && (day d <=? days_in_month (year d) (month d)).

(** The order of the calendar. *)
Definition date_le (a b : date) : Prop :=
  year a < year b \/
  (year a = year b /\
   (month a < month b \/ (month a = month b /\ day a <= day b))).

Definition digit_val (c : ascii) : option Z :=
  let n := Z.of_N (N_of_ascii c) in
  if (48 <=? n) && (n <=? 57) then Some (n - 48) else None.

(** Reading a date written [YYYY-MM-DD]; only a date of the calendar is
    accepted. *)
Definition parse_Ymd (s : string) : option date :=
  match s with
  | String y3 (String y2 (String y1 (String y0 (String sep1
    (String m1 (String m0 (String sep2 (String d1 (String d0 EmptyString))))))))) =>
      y3 ← digit_val y3; y2 ← digit_val y2; y1 ← digit_val y1; y0 ← digit_val y0;
      m1 ← digit_val m1; m0 ← digit_val m0;
      d1 ← digit_val d1; d0 ← digit_val d0;
      let d := mkDate (1000 * y3 + 100 * y2 + 10 * y1 + y0)
                      (10 * m1 + m0) (10 * d1 + d0) in
      if Ascii.eqb sep1 "-" && Ascii.eqb sep2 "-" && valid_dateb d
      then Some d else None
  | _ => None
  end.

(** The end of [ord2ymd]: month and day of day [n] (from 0) of a year. *)
Definition month_day (leapyear : bool) (n : Z) : Z * Z :=
  let m := Z.shiftr (n + 50) 5 in
  let preceding :=
    DAYS_BEFORE_MONTH m + (if (2 <? m) && leapyear then 1 else 0) in
  if n <? preceding then
    let m := m - 1 in
    let preceding :=
      preceding - (DAYS_IN_MONTH m + (if (m =? 2) && leapyear then 1 else 0)) in
    (m, n - preceding + 1)
  else (m, n - preceding + 1).

(** The month exists, the day is one of it, and the days before them add up
    to [n]. *)
Definition month_day_ok (leapyear : bool) (n : Z) : bool :=
  let '(m, d) := month_day leapyear n in
  (1 <=? m) && (m <=? 12) && (1 <=? d) &&
  (d <=? DAYS_IN_MONTH m + (if (m =? 2) && leapyear then 1 else 0)) &&
  (DAYS_BEFORE_MONTH m + (if (2 <? m) && leapyear then 1 else 0) + d =? n + 1).

Definition leap_day (y : Z) : Z := if is_leap y then 1 else 0.

(** [check] holds for [fuel] consecutive integers from [r] on. *)
Fixpoint all_from (check : Z -> bool) (fuel : nat) (r : Z) : bool :=
  match fuel with
  | O => true
  | S fuel => check r && all_from check fuel (r + 1)
  end.

(** A title or copyright that is there, and one that is not: Python takes
    the empty string for false. *)
Definition present (o : option string) (v : string) : Prop := o = Some v /\ v <> "".

Definition absent (o : option string) : Prop := o = None \/ o = Some "".

(** ** Concrete inputs

    A Pillow for 8-bit greyscale files (mode "L") with a nearest-neighbour
    stand-in for the resampling kernel, and small worlds to run the plugin
    in. *)

Definition gray : Pillow :=
  {| NativePixel := byte;
     to_rgb := fun g => (g, g, g);
     resample := fun src px sz x y => px (x * src.1 / sz.1) (y * src.2 / sz.2) |}.

Definition gradient (w h : Z) : @Image gray :=
  @mkImage gray w h (fun x y => Native (clip8 (x + 2 * y))).

Definition white (w h : Z) : @Image gray :=
  @mkImage gray w h (fun _ _ => Native xff).

(** [gradient 6 6] with another interior: the 2x2 block in the middle is
    white. *)
Definition spotted : @Image gray :=
  @mkImage gray 6 6 (fun x y =>
    if (2 <=? x) && (x <? 4) && (2 <=? y) && (y <? 4) then Native xff
    else Native (clip8 (x + 2 * y))).

Definition one_image (im : @Image gray) : @State gray :=
  @mkState gray {[ 1%positive := im ]} [].

Definition size_at (s : @State gray) (l : loc) : option (Z * Z) :=
  @size gray <$> @heap gray s !! l.

Definition colour_at (s : @State gray) (l : loc) (x y : Z) : option RGB :=
  (fun c => @rgb_of gray (@getpixel gray c x y)) <$> @heap gray s !! l.

Definition video_of_the_day : Response :=
  {| status_code := 200;
     json := Some {[ "media_type" := "video"; "title" := "Eclipse";
                     "url" := "https://example.org/eclipse" ]};
     content := [] |}.

Definition demo_world (answer : Response) : @World gray :=
  @mkWorld gray
    (fun name => if String.eqb name "NASA_SECRET" then Some "DEMO_KEY" else None)
    (800, 480)
    (mkDatetime (mkDate 2024 2 29) 43200000000)
    1234567
    (fun _ => Some answer)
    (fun _ => None)
    (fun _ => (0, 0, 0, 0))
    (fun im _ _ => im).

Definition flag_off_settings : gmap string string :=
  {[ "randomizeApod" := "false"; "customDate" := "2024-05-01" ]}.

(** ** The claims in the words of the specification *)

(** [resize_to_fit] returns an image inside the box that is no larger than
    the source, unchanged when the source fits already, and whose sides keep
    the source's ratio within one pixel: the width differs by less than 1
    from the height times [w / h], or the height by less than 1 from the
    width times [h / w] (both written without the division). *)
Definition resize_to_fit_fits `{Pillow}
    (s : State) (l : loc) (im : Image) (W Ht : Z) : Prop :=
  exists l' s' r,
    resize_to_fit l (W, Ht) s = (Ok l', s') /\ heap s' !! l' = Some r /\
    width r <= W /\ height r <= Ht /\
    width r <= width im /\ height r <= height im /\
    (width im <= W -> height im <= Ht -> r = im) /\
    (Z.abs (width r * height im - height r * width im) < height im \/
     Z.abs (height r * width im - width r * height im) < width im).

(** The custom date is the date parameter exactly when the randomize key is
    absent and the custom date is there. *)
Definition custom_date_rule `{Pillow}
    (w : World) (settings : gmap string string) (api_key : string) : Prop :=
  (exists v, settings !! "customDate" = Some v /\
     query_params w settings api_key =
       Ok (<["date" := v]> {[ "api_key" := api_key ]})) <->
  (settings !! "randomizeApod" = None /\ truthy (settings !! "customDate") = true).

(** With the randomize flag set the date parameter is [START] plus the
    offset [randint] draws from [0 .. delta]: a date of the calendar from
    2015-01-01 to today, written so that it reads back; every offset of the
    range can be drawn, and no two offsets give the same parameter. *)
Definition random_date_chosen `{Pillow}
    (w : World) (settings : gmap string string) (api_key : string) : Prop :=
  let delta := days_between (today w) START in
  exists k d,
    randint (entropy w) 0 delta = Ok k /\ 0 <= k <= delta /\
    add_days START k = Ok (mkDatetime d 0) /\
    query_params w settings api_key =
      Ok (<["date" := strftime_Ymd (mkDatetime d 0)]> {[ "api_key" := api_key ]}) /\
    parse_Ymd (strftime_Ymd (mkDatetime d 0)) = Some d /\
    valid_date d /\
    date_le (dt_date START) d /\ date_le d (dt_date (today w)) /\
    (forall j, 0 <= j <= delta -> randint j 0 delta = Ok j) /\
    (forall j dj, 0 <= j <= delta -> add_days START j = Ok dj ->
       strftime_Ymd dj = strftime_Ymd (mkDatetime d 0) -> j = k).

Definition randomize_settings : gmap string string :=
  {[ "randomizeApod" := "true"; "customDate" := "2024-05-01" ]}.

(** ** [Apod.generate_settings_template] *)

(** The values of a settings template: booleans, strings, and dictionaries
    of these. *)
Inductive PyAtom : Type :=
| PyBool (b : bool)
| PyStr (s : string).

Inductive PyValue : Type :=
| PyAtomic (a : PyAtom)
| PyDict (items : list (string * PyAtom)).

(** The method, applied to what [super().generate_settings_template()]
    returns (the base plugin is not part of these sources). *)
Definition generate_settings_template (super_template : gmap string PyValue)
  : gmap string PyValue :=
  let template_params := super_template in
  let template_params :=
    <["api_key" := PyDict [("required", PyBool true); ("service", PyStr "NASA");
                           ("expected_key", PyStr "NASA_SECRET")]]> template_params in
  let template_params :=
    <["style_settings" := PyAtomic (PyBool false)]> template_params in
  template_params.

(** ** Parts of [generate_image] by name *)

(** Lines 79-115: what [generate_image] does with the image it loaded. *)
Definition render `{Pillow} (w : World) (settings : gmap string string)
    (text : string) (image : loc) : M loc :=
  do image <-
    (if bool_decide (settings !! "autoResize" = Some "true") then
       let inky_res := resolution w in
       do bg <-
         (if bool_decide (settings !! "autoBgColor" = Some "true") then
            do im <- deref image; lift (average_border_color im 10)
          else ret (0, 0, 0));
       fit_with_background image inky_res bg
     else ret image);
  do im <- deref image;
  let bbox := textbbox w text in
  let text_width := bbox.1.2 - bbox.1.1.1 in
  let text_height := bbox.2 - bbox.1.1.2 in
  let padding := 15 in
  let x := width im - text_width - padding in
  let y := height im - text_height - padding in
  store image (draw_text w im (x, y) text);;
  ret image.

(** Where the caption goes on an image of size [sz]. *)
Definition caption_xy `{Pillow} (w : World) (text : string) (sz : Z * Z) : Z * Z :=
  let bbox := textbbox w text in
  (sz.1 - (bbox.1.2 - bbox.1.1.1) - 15, sz.2 - (bbox.2 - bbox.1.1.2) - 15).

(** The background [generate_image] chooses for the canvas. *)
Definition background `{Pillow} (settings : gmap string string) (im : Image)
  : Result (Z * Z * Z) :=
  if bool_decide (settings !! "autoBgColor" = Some "true")
  then average_border_color im 10 else Ok (0, 0, 0).

(** ** More concrete inputs *)

Definition image_of_the_day : Response :=
  {| status_code := 200;
     json := Some {[ "media_type" := "image"; "title" := "Galaxy";
                     "copyright" := "NASA";
                     "hdurl" := "https://example.org/hd.jpg";
                     "url" := "https://example.org/sd.jpg" ]};
     content := [x2a] |}.

Definition image_bytes : Response :=
  {| status_code := 200; json := None; content := [xff; xd8] |}.

(** A world where the API answers with an image of the day, 1600x400. *)
Definition image_world : @World gray :=
  @mkWorld gray
    (fun name => if String.eqb name "NASA_SECRET" then Some "DEMO_KEY" else None)
    (800, 480)
    (mkDatetime (mkDate 2024 2 29) 43200000000)
    1234567
    (fun rq => if bool_decide (req_url rq = Some APOD_URL)
               then Some image_of_the_day else Some image_bytes)
    (fun _ => Some (gradient 1600 400))
    (fun text => (0, 0, 8 * Z.of_nat (String.length text), 20))
    (fun im _ _ => im).

(** A world without a network, one without a key, and one whose clock
    stands in 2001. *)
Definition offline_world : @World gray :=
  @mkWorld gray
    (fun name => if String.eqb name "NASA_SECRET" then Some "DEMO_KEY" else None)
    (800, 480) (mkDatetime (mkDate 2024 2 29) 0) 0
    (fun _ => None) (fun _ => None) (fun _ => (0, 0, 0, 0)) (fun im _ _ => im).

Definition keyless_world : @World gray :=
  @mkWorld gray (fun _ => None)
    (800, 480) (mkDatetime (mkDate 2024 2 29) 0) 0
    (fun _ => None) (fun _ => None) (fun _ => (0, 0, 0, 0)) (fun im _ _ => im).

Definition early_world : @World gray :=
  @mkWorld gray
    (fun name => if String.eqb name "NASA_SECRET" then Some "DEMO_KEY" else None)
    (800, 480) (mkDatetime (mkDate 2001 9 9) 0) 0
    (fun _ => None) (fun _ => None) (fun _ => (0, 0, 0, 0)) (fun im _ _ => im).

Definition key_params : gmap string string := {[ "api_key" := "DEMO_KEY" ]}.

Definition resize_settings : gmap string string :=
  {[ "autoResize" := "true"; "autoBgColor" := "true" ]}.

(** The download or the decoding failed: the plugin's own error, the two
    requests on the log, the second to the high-resolution address when
    there is one and to the standard one otherwise, with no parameter. *)
Definition load_failure_outcome `{Pillow} (w : World)
    (settings : gmap string string) (s : State)
    (params data : gmap string string) : Prop :=
  exists url,
    generate_image w settings s =
    (Raise (RuntimeError "Failed to load APOD image."),
     mkState (heap s)
       (sent s ++ [mkRequest (Some APOD_URL) params; mkRequest url ∅])) /\
    (forall h, present (data !! "hdurl") h -> url = Some h) /\
    (absent (data !! "hdurl") -> url = data !! "url").

(** The image of the day [im] on the display: the caption is drawn on the
    canvas of size [(W, Ht)] composed of the thumbnail of [im] and the
    background, and outside the thumbnail the canvas has the background
    colour. *)
Definition resized_outcome `{Pillow} (w : World)
    (settings : gmap string string) (s : State)
    (data : gmap string string) (im : Image) (W Ht : Z) : Prop :=
  exists bg rz c s',
    background settings im = Ok bg /\ band_ok bg /\
    thumbnail_result im (W, Ht) = Ok rz /\
    generate_image w settings s = (Ok c, s') /\
    heap s' !! c =
      Some (draw_text w (composed rz (W, Ht) bg)
              (caption_xy w (caption data) (W, Ht)) (caption data)) /\
    size (composed rz (W, Ht) bg) = (W, Ht) /\
    (forall i j,
       inside rz (i - (W - width rz) / 2) (j - (Ht - height rz) / 2) = false ->
       rgb_at (composed rz (W, Ht) bg) i j = bg).

(** A 6x6 image with a dark frame two pixels thick around a white block. *)
Definition framed : @Image gray :=
  @mkImage gray 6 6 (fun x y =>
    if (2 <=? x) && (x <? 4) && (2 <=? y) && (y <? 4) then Native xff
    else Native x10).

Definition image_data : gmap string string :=
  {[ "media_type" := "image"; "title" := "Galaxy"; "copyright" := "NASA";
     "hdurl" := "https://example.org/hd.jpg";
     "url" := "https://example.org/sd.jpg" ]}.

(** * Proofs *)

(** ** Thumbnail geometry *)

Lemma Qdiv_inject (a b : Z) :
  0 < b -> (inject_Z a / inject_Z b == a # Z.to_pos b)%Q.
Proof.
  intros Hb. destruct b as [|p|p]; try lia.
  unfold Qeq, Qdiv, Qmult, Qinv, inject_Z. simpl. lia.
Qed.

Lemma Qmul_div_inject (y w h : Z) :
  0 < h -> (inject_Z y * (inject_Z w / inject_Z h) == (y * w) # Z.to_pos h)%Q.
Proof.
  intros Hh. rewrite Qdiv_inject by done.
  unfold Qeq, Qmult, inject_Z. simpl. lia.
Qed.

Lemma Qdiv_div_inject (x w h : Z) :
  0 < w -> 0 < h ->
  (inject_Z x / (inject_Z w / inject_Z h) == (x * h) # Z.to_pos w)%Q.
Proof.
  intros Hw Hh. rewrite (Qdiv_inject w h) by done.
  destruct w as [|p|p]; try lia. destruct h as [|q|q]; try lia.
  unfold Qeq, Qdiv, Qmult, Qinv, inject_Z. simpl. lia.
Qed.

Lemma Qle_div_inject (w h x y : Z) :
  0 < h -> 0 < y ->
  Qle_bool (inject_Z w / inject_Z h) (inject_Z x / inject_Z y) = true <->
  w * y <= x * h.
Proof.
  intros Hh Hy. rewrite Qle_bool_iff, !Qdiv_inject by done.
  unfold Qle. simpl. rewrite !Z2Pos.id by done. reflexivity.
Qed.

(** Whatever the key says, [round_aspect] answers with the floor or the
    ceiling, and with 1 when that is below. *)
Lemma round_aspect_cases (v : Q) (key : Z -> Q) :
  round_aspect v key = Z.max (Qfloor v) 1 \/
  round_aspect v key = Z.max (Qceiling v) 1.
Proof. unfold round_aspect. destruct (Qle_bool _ _); auto. Qed.

Lemma round_aspect_frac (a b : Z) (key : Z -> Q) (v : Q) :
  0 < a -> 0 < b -> (v == a # Z.to_pos b)%Q ->
  let r := round_aspect v key in
  1 <= r /\ r * b < a + b /\ a < r * b + b /\
  (forall m, 1 <= m -> a <= m * b -> r <= m).
Proof.
  intros Ha Hb Hv r.
  assert (Hf : Qfloor v = a / b).
  { rewrite (Qfloor_comp _ _ Hv). simpl. by rewrite Z2Pos.id. }
  assert (Hc : Qceiling v = - ((- a) / b)).
  { rewrite (Qceiling_comp _ _ Hv). unfold Qceiling. simpl. by rewrite Z2Pos.id. }
  pose proof (Z.div_mod a b ltac:(lia)) as E1.
  pose proof (Z.mod_pos_bound a b Hb) as B1.
  pose proof (Z.div_mod (- a) b ltac:(lia)) as E2.
  pose proof (Z.mod_pos_bound (- a) b Hb) as B2.
  subst r. destruct (round_aspect_cases v key) as [-> | ->]; rewrite ?Hf, ?Hc;
    repeat split; try nia; intros m Hm Ham; nia.
Qed.

Lemma preserve_aspect_ratio_fits (w h x y : Z) :
  0 < w -> 0 < h -> 0 < x -> 0 < y ->
  exists r, preserve_aspect_ratio w h x y = Ok r /\ fits w h x y r.
Proof.
  intros Hw Hh Hx Hy. unfold preserve_aspect_ratio.
  destruct ((w <=? x) && (h <=? y)) eqn:Hfit.
  { exists None. split; [done|]. apply andb_prop in Hfit as [? ?]. constructor; lia. }
  assert (Hnot : ~ (w <= x /\ h <= y)).
  { intros [? ?]. apply andb_false_iff in Hfit as [?|?]; lia. }
  destruct (h =? 0) eqn:Eh; [lia|]. destruct (y =? 0) eqn:Ey; [lia|].
  destruct (Qle_bool _ _) eqn:Hle.
  - apply Qle_div_inject in Hle; [|done..].
    eexists; split; [reflexivity|].
    pose proof (round_aspect_frac (y * w) h
      (fun n => Qabs (inject_Z w / inject_Z h - inject_Z n / inject_Z y)%Q)
      _ ltac:(nia) Hh (Qmul_div_inject y w h Hh)) as (H1 & H2 & H3 & H4).
    assert (y <= h) by nia.
    apply fits_by_height; try done.
    + split; [done|]. apply H4; nia.
    + apply H4; nia.
    + lia.
  - assert (Hlt : x * h < w * y).
    { destruct (Z_lt_le_dec (x * h) (w * y)) as [?|Hge]; [done|].
      apply Qle_div_inject in Hge; [congruence|done..]. }
    destruct (w =? 0) eqn:Ew; [lia|].
    eexists; split; [reflexivity|].
    pose proof (round_aspect_frac (x * h) w
      (fun n => if n =? 0 then 0%Q
                else Qabs (inject_Z w / inject_Z h - inject_Z x / inject_Z n)%Q)
      _ ltac:(nia) Hw (Qdiv_div_inject x w h Hw Hh)) as (H1 & H2 & H3 & H4).
    assert (x <= w) by nia.
    apply fits_by_width; try done.
    + split; [done|]. apply H4; nia.
    + apply H4; nia.
    + lia.
Qed.

(** The example of the specification: 400x100 into 200x200. *)
Example thumbnail_400x100_into_200x200 :
  preserve_aspect_ratio 400 100 200 200 = Ok (Some (200, 50)).
Proof. vm_compute. reflexivity. Qed.

(** ** The store: [resize_to_fit] and [fit_with_background] *)

Section Store.
Context `{Pillow}.

Lemma fresh_heap_None (s : State) : heap s !! fresh (dom (heap s)) = None.
Proof. apply not_elem_of_dom, is_fresh. Qed.

(** [resize_to_fit] run on a state: the copy goes to a fresh location and
    [thumbnail] changes the copy. *)
Lemma resize_to_fit_run (s : State) (l : loc) (t : Z * Z) :
  resize_to_fit l t s =
  match heap s !! l with
  | None => (Raise DanglingReference, s)
  | Some im =>
      let l' := fresh (dom (heap s)) in
      match thumbnail_result im t with
      | Ok r => (Ok l', mkState (<[l' := r]> (heap s)) (sent s))
      | Raise e => (Raise e, mkState (<[l' := im]> (heap s)) (sent s))
      end
  end.
Proof.
  destruct t as [tw th].
  unfold resize_to_fit, Image_copy, Image_thumbnail, thumbnail_result, bind, deref,
    alloc, lift, store, ret. simpl.
  destruct (heap s !! l) as [im|]; [|done]. simpl.
  rewrite lookup_insert_eq.
  destruct (preserve_aspect_ratio _ _ _ _) as [[sz'|]|e]; [|done..].
  destruct (decide (size im = sz')); [done|].
  destruct (Image_resize im sz') as [im'|e]; [|done].
  simpl. by rewrite insert_insert_eq.
Qed.

Lemma fit_with_background_run (s : State) (l : loc) (t : Z * Z) (bg : Z * Z * Z) :
  fit_with_background l t bg s =
  match heap s !! l with
  | None => (Raise DanglingReference, s)
  | Some im =>
      let l' := fresh (dom (heap s)) in
      match thumbnail_result im t with
      | Raise e => (Raise e, mkState (<[l' := im]> (heap s)) (sent s))
      | Ok r =>
          let h1 := <[l' := r]> (heap s) in
          if (t.1 <? 0) || (t.2 <? 0) then (Raise ValueError, mkState h1 (sent s))
          else (Ok (fresh (dom h1)),
                mkState (<[fresh (dom h1) := composed r t bg]> h1) (sent s))
      end
  end.
Proof.
  unfold fit_with_background at 1. unfold bind at 1.
  rewrite resize_to_fit_run.
  destruct (heap s !! l) as [im|]; [|done]. simpl.
  destruct (thumbnail_result im t) as [r|e]; [|done].
  unfold Image_new_RGB, Image_paste, bind, raise, alloc, deref, store, ret.
  destruct ((t.1 <? 0) || (t.2 <? 0)); [done|]. simpl.
  set (l' := fresh (dom (heap s))).
  set (h1 := <[l' := r]> (heap s)).
  set (c := fresh (dom h1)).
  assert (Hc : h1 !! c = None) by apply not_elem_of_dom, is_fresh.
  assert (Hl' : h1 !! l' = Some r) by apply lookup_insert_eq.
  assert (c <> l') by congruence.
  rewrite lookup_insert_ne by done. rewrite Hl'. simpl.
  rewrite lookup_insert_eq. simpl. rewrite lookup_insert_ne by done. rewrite Hl'. simpl.
  by rewrite insert_insert_eq.
Qed.

(** Neither function touches an object that was in the store before. *)
Lemma resize_to_fit_frame (s : State) (l : loc) (t : Z * Z) :
  heap s ⊆ heap (resize_to_fit l t s).2.
Proof.
  rewrite resize_to_fit_run.
  destruct (heap s !! l) as [im|]; [|done]. simpl.
  destruct (thumbnail_result im t); simpl; apply insert_subseteq, fresh_heap_None.
Qed.

Lemma fit_with_background_frame (s : State) (l : loc) (t : Z * Z) (bg : Z * Z * Z) :
  heap s ⊆ heap (fit_with_background l t bg s).2.
Proof.
  rewrite fit_with_background_run.
  destruct (heap s !! l) as [im|]; [|done]. simpl.
  destruct (thumbnail_result im t); simpl; [|apply insert_subseteq, fresh_heap_None].
  destruct ((t.1 <? 0) || (t.2 <? 0)); simpl.
  - apply insert_subseteq, fresh_heap_None.
  - etrans; [apply insert_subseteq, fresh_heap_None|].
    apply insert_subseteq, not_elem_of_dom, is_fresh.
Qed.

Lemma frame_lookup (h h' : gmap loc Image) (l : loc) :
  h ⊆ h' -> (h !! l = None -> h' !! l = None) -> h' !! l = h !! l.
Proof.
  intros Hsub Hnone. destruct (h !! l) as [im|] eqn:E.
  - by eapply lookup_weaken.
  - by apply Hnone.
Qed.

Lemma thumbnail_result_fits (im : Image) (W Ht : Z) :
  proper im -> 0 < W -> 0 < Ht ->
  exists r, thumbnail_result im (W, Ht) = Ok r /\
    1 <= width r <= W /\ 1 <= height r <= Ht /\
    width r <= width im /\ height r <= height im /\
    (width im <= W -> height im <= Ht -> r = im) /\
    (Z.abs (width r * height im - height r * width im) < height im \/
     Z.abs (height r * width im - width r * height im) < width im).
Proof.
  intros [Hw Hh] HW HH. unfold thumbnail_result. simpl.
  destruct (preserve_aspect_ratio_fits (width im) (height im) W Ht Hw Hh HW HH)
    as (r & -> & Hfit).
  destruct Hfit as [? ? | x' Hnot [? ?] ? ? Habs | y' Hnot [? ?] ? ? Habs].
  - exists im. repeat split; lia.
  - destruct (decide (size im = (x', Ht))) as [E|E].
    + injection E as E1 E2.
      exists im. repeat split; lia.
    + unfold Image_resize. simpl.
      destruct ((x' <? 1) || (Ht <? 1)) eqn:Eb; [lia|].
      eexists; split; [reflexivity|]. simpl. repeat split; lia.
  - destruct (decide (size im = (W, y'))) as [E|E].
    + injection E as E1 E2.
      exists im. repeat split; lia.
    + unfold Image_resize. simpl.
      destruct ((W <? 1) || (y' <? 1)) eqn:Eb; [lia|].
      eexists; split; [reflexivity|]. simpl. repeat split; lia.
Qed.

(** C9.  [resize_to_fit], and with it [fit_with_background], never changes
    the caller's image: whatever the store, the image and the target, every
    object of the store, the image passed in among them, is after the call
    what it was before, its size and its pixels, also when the call raises;
    the work is done on a copy at a fresh location. *)
Theorem caller_image_unchanged (s : State) (l : loc) (t : Z * Z) (bg : Z * Z * Z) :
  (heap s ⊆ heap (resize_to_fit l t s).2 /\
   heap (resize_to_fit l t s).2 !! l = heap s !! l) /\
  (heap s ⊆ heap (fit_with_background l t bg s).2 /\
   heap (fit_with_background l t bg s).2 !! l = heap s !! l).
Proof.
  split; (split; [auto using resize_to_fit_frame, fit_with_background_frame|]).
  - apply frame_lookup; [apply resize_to_fit_frame|].
    intros E. rewrite resize_to_fit_run, E. done.
  - apply frame_lookup; [apply fit_with_background_frame|].
    intros E. rewrite fit_with_background_run, E. done.
Qed.

(** C2, amended.  For every proper source image and every target size
    [(W, H)] with [W > 0] and [H > 0], [resize_to_fit] returns an image with
    [width <= W] and [height <= H] that is no larger than the source, is the
    source unchanged when that fits the box already, and keeps the source's
    aspect ratio within one pixel of rounding. *)
Theorem resize_to_fit_within_box (s : State) (l : loc) (im : Image) (W Ht : Z) :
  heap s !! l = Some im -> proper im -> 0 < W -> 0 < Ht ->
  resize_to_fit_fits s l im W Ht.
Proof.
  intros Hl Him HW HH. unfold resize_to_fit_fits.
  destruct (thumbnail_result_fits im W Ht Him HW HH) as (r & Hr & Hrest).
  rewrite resize_to_fit_run, Hl. simpl. rewrite Hr.
  eexists _, _, r. split; [reflexivity|]. simpl.
  split; [apply lookup_insert_eq|]. intuition lia.
Qed.

(** C1.  For every proper source image and every target size [(W, H)] with
    [W > 0] and [H > 0], [fit_with_background] returns a canvas of exactly
    the size [(W, H)]; the image [resize_to_fit] returns is pasted at
    [x = (W - resized_width) // 2] and [y = (H - resized_height) // 2], the
    rest is background; the margin before the image is the margin after it,
    or one pixel less. *)
Theorem fit_with_background_centered
    (s : State) (l : loc) (im : Image) (W Ht : Z) (bg : Z * Z * Z) :
  heap s !! l = Some im -> proper im -> 0 < W -> 0 < Ht ->
  exists l' s1 r c s' canvas,
    resize_to_fit l (W, Ht) s = (Ok l', s1) /\ heap s1 !! l' = Some r /\
    fit_with_background l (W, Ht) bg s = (Ok c, s') /\
    heap s' !! c = Some canvas /\
    size canvas = (W, Ht) /\
    let x := (W - width r) / 2 in
    let y := (Ht - height r) / 2 in
    (0 <= x /\ x <= W - width r - x <= x + 1) /\
    (0 <= y /\ y <= Ht - height r - y <= y + 1) /\
    forall i j, 0 <= i < W -> 0 <= j < Ht ->
      getpixel canvas i j =
      if (x <=? i) && (i <? x + width r) && (y <=? j) && (j <? y + height r)
      then Rgb (rgb_of (getpixel r (i - x) (j - y)))
      else Rgb (ink bg).
Proof.
  intros Hl Him HW HH.
  destruct (thumbnail_result_fits im W Ht Him HW HH)
    as (r & Hr & [? ?] & [? ?] & _).
  exists (fresh (dom (heap s))), (mkState (<[fresh (dom (heap s)) := r]> (heap s)) (sent s)), r.
  rewrite resize_to_fit_run, fit_with_background_run, Hl. simpl. rewrite Hr.
  replace ((W <? 0) || (Ht <? 0)) with false by (symmetry; apply orb_false_intro; lia).
  eexists _, _, (composed r (W, Ht) bg).
  split; [reflexivity|]. split; [apply lookup_insert_eq|].
  split; [reflexivity|]. split; [apply lookup_insert_eq|].
  split; [reflexivity|]. simpl.
  pose proof (Z.div_mod (W - width r) 2 ltac:(lia)).
  pose proof (Z.mod_pos_bound (W - width r) 2 ltac:(lia)).
  pose proof (Z.div_mod (Ht - height r) 2 ltac:(lia)).
  pose proof (Z.mod_pos_bound (Ht - height r) 2 ltac:(lia)).
  split; [lia|]. split; [lia|].
  intros i j Hi Hj. unfold inside.
  set (x := (W - width r) / 2). set (y := (Ht - height r) / 2).
  replace ((0 <=? i - x) && (i - x <? width r) && (0 <=? j - y) && (j - y <? height r))
    with ((x <=? i) && (i <? x + width r) && (y <=? j) && (j <? y + height r)); [done|].
  destruct (x <=? i) eqn:E1, (i <? x + width r) eqn:E2,
    (y <=? j) eqn:E3, (j <? y + height r) eqn:E4; simpl; symmetry;
    rewrite ?andb_true_iff, ?andb_false_iff, ?Z.leb_le, ?Z.ltb_lt, ?Z.leb_gt, ?Z.ltb_ge;
    lia.
Qed.
End Store.

(** The theorem above at a 400x100 image and the box 200x200. *)
Lemma resize_to_fit_within_box_witness :
  (heap (one_image (gradient 400 100)) !! 1%positive = Some (gradient 400 100) /\
   proper (gradient 400 100) /\ 0 < 200 /\ 0 < 200) /\
  resize_to_fit_fits (one_image (gradient 400 100)) 1%positive (gradient 400 100) 200 200.
Proof.
  assert (H1 : heap (one_image (gradient 400 100)) !! 1%positive = Some (gradient 400 100))
    by reflexivity.
  assert (H2 : proper (gradient 400 100)) by (split; simpl; lia).
  assert (H3 : 0 < 200) by lia.
  split; [auto|].
  exact (resize_to_fit_within_box _ _ _ 200 200 H1 H2 H3 H3).
Defined.

(** C2 as stated fails at the target size (0, 0): Pillow divides by the
    target height and [resize_to_fit] raises instead of returning. *)
Lemma resize_to_fit_zero_box :
  (resize_to_fit 1%positive (0, 0) (one_image (gradient 1 1))).1
    = Raise ZeroDivisionError /\
  ~ resize_to_fit_fits (one_image (gradient 1 1)) 1%positive (gradient 1 1) 0 0.
Proof.
  assert (E : (resize_to_fit 1%positive (0, 0) (one_image (gradient 1 1))).1
              = Raise ZeroDivisionError).
  { rewrite resize_to_fit_run. reflexivity. }
  split; [exact E|].
  intros (l' & s' & r & Hrun & _). rewrite Hrun in E. discriminate E.
Qed.

Lemma fit_with_background_centered_witness :
  (heap (one_image (gradient 400 100)) !! 1%positive = Some (gradient 400 100) /\
   proper (gradient 400 100) /\ 0 < 200 /\ 0 < 200) /\
  exists l' s1 r c s' canvas,
    resize_to_fit 1%positive (200, 200) (one_image (gradient 400 100)) = (Ok l', s1) /\
    heap s1 !! l' = Some r /\
    fit_with_background 1%positive (200, 200) (0, 0, 0) (one_image (gradient 400 100))
      = (Ok c, s') /\
    heap s' !! c = Some canvas /\
    size canvas = (200, 200) /\
    let x := (200 - width r) / 2 in
    let y := (200 - height r) / 2 in
    (0 <= x /\ x <= 200 - width r - x <= x + 1) /\
    (0 <= y /\ y <= 200 - height r - y <= y + 1) /\
    forall i j, 0 <= i < 200 -> 0 <= j < 200 ->
      getpixel canvas i j =
      if (x <=? i) && (i <? x + width r) && (y <=? j) && (j <? y + height r)
      then Rgb (rgb_of (getpixel r (i - x) (j - y)))
      else Rgb (ink (0, 0, 0)).
Proof.
  assert (H1 : heap (one_image (gradient 400 100)) !! 1%positive = Some (gradient 400 100))
    by reflexivity.
  assert (H2 : proper (gradient 400 100)) by (split; simpl; lia).
  assert (H3 : 0 < 200) by lia.
  split; [auto|].
  exact (fit_with_background_centered _ _ _ 200 200 (0, 0, 0) H1 H2 H3 H3).
Defined.

(** The example of the specification, run: 400x100 into 200x200 is resized
    to 200x50 and pasted at (0, 75) on the white canvas. *)
Example fit_400x100_into_200x200 :
  let run := @fit_with_background gray 1%positive (200, 200) (255, 255, 255)
               (one_image (gradient 400 100)) in
  run.1 = Ok 3%positive /\
  size_at run.2 2%positive = Some (200, 50) /\
  size_at run.2 3%positive = Some (200, 200) /\
  colour_at run.2 3%positive 0 74 = Some (xff, xff, xff) /\
  colour_at run.2 3%positive 0 75 = Some (x00, x00, x00) /\
  colour_at run.2 3%positive 6 75 = colour_at run.2 1%positive 12 0.
Proof. vm_compute. repeat split. Qed.

(** ** The border colour *)

Lemma bind_singleton_fmap {A B} (f : A -> B) (l : list A) :
  (x ← l; [f x]) = f <$> l.
Proof. induction l as [|a l IH]; [done|]. rewrite bind_cons, IH. done. Qed.

Lemma bind_bind {A B C} (f : A -> list B) (g : B -> list C) (l : list A) :
  (l ≫= f) ≫= g = (x ← l; f x ≫= g).
Proof.
  induction l as [|a l IH]; [done|]. by rewrite !bind_cons, bind_app, IH.
Qed.

Lemma bind_app_perm {A B} (f g : A -> list B) (l : list A) :
  (x ← l; f x ++ g x) ≡ₚ (l ≫= f) ++ (l ≫= g).
Proof.
  induction l as [|a l IH]; [done|].
  rewrite !bind_cons, IH. rewrite <- !app_assoc. f_equiv.
  rewrite !app_assoc. f_equiv. apply Permutation_app_comm.
Qed.

Lemma length_bind_const {A B} (f : A -> list B) (l : list A) (n : nat) :
  (forall a, length (f a) = n) -> length (l ≫= f) = (length l * n)%nat.
Proof.
  intros Hf. induction l as [|a l IH]; [done|].
  rewrite bind_cons, length_app, IH, Hf. simpl. lia.
Qed.

(** Counting down from [n - 1] visits the last [b] indices below [n]. *)
Lemma seqZ_mirror (n b : Z) :
  (fun y => n - y - 1) <$> seqZ 0 b ≡ₚ seqZ (n - b) b.
Proof.
  apply NoDup_Permutation.
  - apply NoDup_fmap_2; [intros x y; lia | apply NoDup_seqZ].
  - apply NoDup_seqZ.
  - intros k. rewrite list_elem_of_fmap, elem_of_seqZ. split.
    + intros (y & -> & Hy). apply elem_of_seqZ in Hy. lia.
    + intros Hk. exists (n - k - 1). split; [lia|]. apply elem_of_seqZ. lia.
Qed.

Lemma bind_mirror {B} (f : Z -> list B) (n b : Z) :
  (y ← seqZ 0 b; f (n - y - 1)) ≡ₚ seqZ (n - b) b ≫= f.
Proof. rewrite <- (seqZ_mirror n b), list_fmap_bind. done. Qed.

Lemma sum_band_perm f l1 l2 : l1 ≡ₚ l2 -> sum_band f l1 = sum_band f l2.
Proof. unfold sum_band. induction 1; simpl; lia. Qed.

Lemma sum_band_bounds f l :
  Forall (fun p => 0 <= f p <= 255) l ->
  0 <= sum_band f l <= 255 * Z.of_nat (length l).
Proof. unfold sum_band. induction 1; simpl length; simpl foldr; lia. Qed.

Lemma band_range (b : byte) : 0 <= band b <= 255.
Proof. unfold band. pose proof (Byte.to_N_bounded b). lia. Qed.

Lemma rgb_ints_ok (c : RGB) : band_ok (rgb_ints c).
Proof. destruct c as [[r g] b]. repeat split; apply band_range. Qed.

(** [int] of the quotient of two integers is their quotient rounded toward
    zero, whatever the sign. *)
Lemma py_int_quot (a n : Z) :
  0 < n -> py_int (inject_Z a / inject_Z n) = Z.quot a n.
Proof.
  intros Hn. unfold py_int.
  pose proof (Qdiv_inject a n Hn) as E.
  rewrite (Qleb_comp _ _ (reflexivity 0%Q) _ _ E).
  rewrite (Qfloor_comp _ _ E), (Qceiling_comp _ _ E).
  unfold Qceiling, Qfloor, Qopp. simpl Qnum. simpl Qden. rewrite Z2Pos.id by done.
  destruct (Qle_bool 0 (a # Z.to_pos n)) eqn:Hs.
  - apply Qle_bool_iff in Hs. unfold Qle in Hs. simpl in Hs.
    symmetry. apply Z.quot_div_nonneg; lia.
  - assert (a < 0).
    { destruct (Z_lt_le_dec a 0) as [?|Hge]; [done|].
      assert (Qle_bool 0 (a # Z.to_pos n) = true); [|congruence].
      apply Qle_bool_iff. unfold Qle. simpl. lia. }
    rewrite <- (Z.opp_involutive a) at 2. rewrite Z.quot_opp_l by lia.
    f_equal. symmetry. apply Z.quot_div_nonneg; lia.
Qed.

Lemma trunc_mean_range f (l : list (Z * Z * Z)) :
  l <> [] -> Forall (fun p => 0 <= f p <= 255) l -> 0 <= trunc_mean f l <= 255.
Proof.
  intros Hne Hl. unfold trunc_mean.
  pose proof (sum_band_bounds f l Hl) as [Hlo Hhi].
  assert (Hn : 0 < Z.of_nat (length l)) by (destruct l; [done|simpl; lia]).
  rewrite Z.quot_div_nonneg by lia. split.
  - apply Z.div_pos; lia.
  - apply Z.div_le_upper_bound; lia.
Qed.

Lemma length_border_crops (w h b : Z) :
  length (border_crops w h b) = (4 * Z.to_nat b)%nat.
Proof.
  unfold border_crops. rewrite length_app.
  rewrite !(length_bind_const _ _ 2%nat) by done. rewrite length_seqZ. lia.
Qed.

(** The crops of the two loops: for each [k] below the thickness a row from
    the top, a row from the bottom, a column from the left and one from the
    right. *)
Lemma elem_of_border_crops (w h b : Z) (bx : Box) :
  bx ∈ border_crops w h b <->
  exists k, 0 <= k < b /\
    (bx = (0, k, w, k + 1) \/ bx = (0, h - k - 1, w, h - k) \/
     bx = (k, 0, k + 1, h) \/ bx = (w - k - 1, 0, w - k, h)).
Proof.
  unfold border_crops. rewrite elem_of_app, !list_elem_of_bind. split.
  - intros [(k & Hbx & Hk) | (k & Hbx & Hk)]; apply elem_of_seqZ in Hk;
      exists k; (split; [lia|]);
      apply elem_of_cons in Hbx as [-> | Hbx]; auto;
      apply list_elem_of_singleton in Hbx as ->; auto.
  - intros (k & Hk & [-> | [-> | [-> | ->]]]);
      [left | left | right | right]; exists k; rewrite elem_of_seqZ;
      (split; [|lia]); rewrite elem_of_cons, list_elem_of_singleton; auto.
Qed.

Section Border.
Context `{Pillow}.

Lemma getdata_all_ok (im : Image) : Forall band_ok (getdata im).
Proof.
  unfold getdata. apply Forall_forall. intros p Hp.
  apply list_elem_of_bind in Hp as (y & Hp & _).
  apply list_elem_of_bind in Hp as (x & Hp & _).
  apply list_elem_of_singleton in Hp as ->. apply rgb_ints_ok.
Qed.

Lemma sampled_all_ok (im : Image) (b : Z) : Forall band_ok (sampled_pixels im b).
Proof.
  unfold sampled_pixels. apply Forall_forall. intros p Hp.
  apply list_elem_of_bind in Hp as (bx & Hp & _).
  revert p Hp. apply Forall_forall, getdata_all_ok.
Qed.

(** A one-pixel-high crop within the image is a row of it. *)
Lemma getdata_crop_row (im : Image) (y y1 : Z) :
  0 <= y < height im -> y1 = y + 1 ->
  getdata (crop (convert_RGB im) (0, y, width im, y1)) = row im y.
Proof.
  intros Hy ->. unfold getdata, crop, row. simpl.
  replace (y + 1 - y) with 1 by lia. rewrite Z.sub_0_r.
  change (seqZ 0 1) with [0]. rewrite bind_singleton.
  rewrite <- bind_singleton_fmap. apply Forall_bind_ext, Forall_forall.
  intros x Hx. apply elem_of_seqZ in Hx. unfold inside, rgb_at. simpl.
  replace ((0 <=? x + 0) && (x + 0 <? width im) && (0 <=? 0 + y) && (0 + y <? height im))
    with true by (symmetry; repeat (apply andb_true_intro; split); lia).
  simpl. by rewrite Z.add_0_r.
Qed.

(** A one-pixel-wide crop within the image is a column of it. *)
Lemma getdata_crop_column (im : Image) (x x1 : Z) :
  0 <= x < width im -> x1 = x + 1 ->
  getdata (crop (convert_RGB im) (x, 0, x1, height im)) = column im x.
Proof.
  intros Hx ->. unfold getdata, crop, column. simpl.
  replace (x + 1 - x) with 1 by lia. rewrite Z.sub_0_r.
  rewrite <- bind_singleton_fmap. apply Forall_bind_ext, Forall_forall.
  intros y Hy. apply elem_of_seqZ in Hy.
  change (seqZ 0 1) with [0]. rewrite bind_singleton. unfold inside, rgb_at. simpl.
  replace ((0 <=? 0 + x) && (0 + x <? width im) && (0 <=? y + 0) && (y + 0 <? height im))
    with true by (symmetry; repeat (apply andb_true_intro; split); lia).
  simpl. by rewrite Z.add_0_r.
Qed.

Lemma sampled_interleaved (im : Image) (b : Z) :
  b <= width im -> b <= height im ->
  sampled_pixels im b =
  (y ← seqZ 0 b; row im y ++ row im (height im - y - 1)) ++
  (x ← seqZ 0 b; column im x ++ column im (width im - x - 1)).
Proof.
  intros Hw Hh. unfold sampled_pixels, border_crops.
  rewrite bind_app, !bind_bind.
  f_equal; apply Forall_bind_ext, Forall_forall;
    intros k Hk; apply elem_of_seqZ in Hk; rewrite bind_cons, bind_singleton.
  - by rewrite !getdata_crop_row by lia.
  - by rewrite !getdata_crop_column by lia.
Qed.

(** With the border inside the image the crops read the four bands of the
    frame, each pixel as often as bands cover it. *)
Lemma sampled_border (im : Image) (b : Z) :
  b <= width im -> b <= height im ->
  sampled_pixels im b ≡ₚ border_pixels im b.
Proof.
  intros Hw Hh. rewrite sampled_interleaved by done. unfold border_pixels.
  rewrite !bind_app_perm, !bind_mirror, <- !app_assoc. done.
Qed.

Lemma length_row (im : Image) (y : Z) : length (row im y) = Z.to_nat (width im).
Proof. unfold row. by rewrite length_fmap, length_seqZ. Qed.

Lemma length_column (im : Image) (x : Z) : length (column im x) = Z.to_nat (height im).
Proof. unfold column. by rewrite length_fmap, length_seqZ. Qed.

Lemma length_border_pixels (im : Image) (b : Z) :
  0 <= b -> 0 <= width im -> 0 <= height im ->
  Z.of_nat (length (border_pixels im b)) = 2 * b * (width im + height im).
Proof.
  intros Hb Hw Hh. unfold border_pixels. rewrite !length_app.
  rewrite !(length_bind_const (row im) _ _ (length_row im)).
  rewrite !(length_bind_const (column im) _ _ (length_column im)).
  rewrite !length_seqZ. nia.
Qed.

(** [average_border_color] in terms of the pixels it collects. *)
Lemma average_border_color_run (im : Image) (b : Z) :
  sampled_pixels im b <> [] ->
  average_border_color im b =
  Ok (trunc_mean (fun p => p.1.1) (sampled_pixels im b),
      trunc_mean (fun p => p.1.2) (sampled_pixels im b),
      trunc_mean (fun p => p.2) (sampled_pixels im b)).
Proof.
  intros Hne. unfold average_border_color. simpl.
  change (border_crops (width im) (height im) b ≫= _) with (sampled_pixels im b).
  unfold np_mean_axis0, trunc_mean.
  destruct (sampled_pixels im b) as [|p l] eqn:E; [done|].
  assert (0 < Z.of_nat (length (p :: l))) by (simpl; lia).
  by rewrite !py_int_quot by done.
Qed.

Lemma getdata_crop_ext (a b : Image) (bx : Box) :
  width a = width b -> height a = height b ->
  (forall x y, bx.1.1.1 <= x < bx.1.2 -> bx.1.1.2 <= y < bx.2 ->
     0 <= x < width a -> 0 <= y < height a -> getpixel a x y = getpixel b x y) ->
  getdata (crop (convert_RGB a) bx) = getdata (crop (convert_RGB b) bx).
Proof.
  destruct bx as [[[x0 y0] x1] y1]. simpl. intros Ew Eh Hag.
  unfold getdata, crop. simpl.
  apply Forall_bind_ext, Forall_forall. intros y Hy. apply elem_of_seqZ in Hy.
  apply Forall_bind_ext, Forall_forall. intros x Hx. apply elem_of_seqZ in Hx.
  unfold inside. simpl. rewrite <- Ew, <- Eh.
  destruct ((0 <=? x + x0) && (x + x0 <? width a) &&
            (0 <=? y + y0) && (y + y0 <? height a)) eqn:Hin; [|done].
  rewrite Hag; [done|lia..].
Qed.

(** C3.  For every image of size [w]x[h] and every border thickness [b]
    with [0 < b <= min(w, h) / 2], [average_border_color] returns three
    integers, each within 0..255; the pixels it samples are those of the top
    [b] rows, the bottom [b] rows, the left [b] columns and the right [b]
    columns, and each integer is the mean of that band over them, rounded
    toward zero. *)
Theorem average_border_color_mean (im : Image) (b : Z) :
  0 < b -> 2 * b <= Z.min (width im) (height im) ->
  exists r g bl,
    average_border_color im b = Ok (r, g, bl) /\
    (0 <= r <= 255 /\ 0 <= g <= 255 /\ 0 <= bl <= 255) /\
    sampled_pixels im b ≡ₚ border_pixels im b /\
    r = trunc_mean (fun p => p.1.1) (border_pixels im b) /\
    g = trunc_mean (fun p => p.1.2) (border_pixels im b) /\
    bl = trunc_mean (fun p => p.2) (border_pixels im b).
Proof.
  intros Hb Hmin.
  assert (Hperm : sampled_pixels im b ≡ₚ border_pixels im b)
    by (apply sampled_border; lia).
  assert (Hne : sampled_pixels im b <> []).
  { intros E. pose proof (length_border_pixels im b) as L.
    rewrite <- Hperm, E in L. simpl in L. nia. }
  pose proof (sampled_all_ok im b) as Hok.
  do 3 eexists. split; [by apply average_border_color_run|].
  split; [|split; [done|]].
  - repeat split; apply trunc_mean_range; try done;
      (eapply Forall_impl; [exact Hok|]; intros p (? & ? & ?); lia).
  - unfold trunc_mean. by rewrite !(sum_band_perm _ _ _ Hperm), Hperm.
Qed.

(** C10.  [average_border_color] depends on the border pixels only: two
    images of the same size [w]x[h] with [min(w, h) >= 2 * border_px] that
    agree on every pixel of the top and bottom [border_px] rows and of the
    left and right [border_px] columns get the same result, whatever their
    interiors. *)
Theorem average_border_color_border_only (a b : Image) (border_px : Z) :
  size a = size b ->
  2 * border_px <= Z.min (width a) (height a) ->
  (forall x y, in_border (width a) (height a) border_px x y ->
     getpixel a x y = getpixel b x y) ->
  average_border_color a border_px = average_border_color b border_px.
Proof.
  intros Esz Hmin Hag. injection Esz as Ew Eh.
  assert (E : sampled_pixels a border_px = sampled_pixels b border_px).
  { unfold sampled_pixels. rewrite <- Ew, <- Eh.
    apply Forall_bind_ext, Forall_forall. intros bx Hbx.
    apply getdata_crop_ext; [done..|]. intros x y Hx Hy Hxw Hyh.
    apply Hag. unfold in_border.
    apply elem_of_border_crops in Hbx as (k & Hk & [-> | [-> | [-> | ->]]]);
      simpl in Hx, Hy; lia. }
  unfold average_border_color. simpl.
  change (border_crops (width a) (height a) border_px ≫= _)
    with (sampled_pixels a border_px).
  change (border_crops (width b) (height b) border_px ≫= _)
    with (sampled_pixels b border_px).
  by rewrite E.
Qed.
End Border.

(** C4, amended.  [average_border_color] does not clamp the thickness and
    has no whole-image fallback: for every image with at least one pixel
    each way it requests the four crops of each of the [border_px] steps,
    and these lie within the image, all of them, exactly when [border_px]
    does not exceed the smaller side; an image smaller than [2 * border_px]
    but not smaller than [border_px] is sampled within range, with
    overlapping bands. *)
Theorem border_crops_in_range (w h b : Z) :
  0 < w -> 0 < h ->
  length (border_crops w h b) = (4 * Z.to_nat b)%nat /\
  (Forall (in_range w h) (border_crops w h b) <-> b <= Z.min w h).
Proof.
  intros Hw Hh. split; [apply length_border_crops|].
  rewrite Forall_forall. split.
  - intros Hall. destruct (Z_le_gt_dec b (Z.min w h)) as [?|Hgt]; [done|exfalso].
    destruct (Z_le_gt_dec b h) as [Hbh|Hbh].
    + assert (Hin : (b - 1, 0, b - 1 + 1, h) ∈ border_crops w h b).
      { apply elem_of_border_crops. exists (b - 1). split; [lia|auto]. }
      apply Hall in Hin. simpl in Hin. lia.
    + assert (Hin : (0, b - 1, w, b - 1 + 1) ∈ border_crops w h b).
      { apply elem_of_border_crops. exists (b - 1). split; [lia|auto]. }
      apply Hall in Hin. simpl in Hin. lia.
  - intros Hb bx Hbx. apply elem_of_border_crops in Hbx
      as (k & Hk & [-> | [-> | [-> | ->]]]); simpl; lia.
Qed.

Lemma average_border_color_mean_witness :
  (0 < 2 /\ 2 * 2 <= Z.min (width (gradient 6 4)) (height (gradient 6 4))) /\
  exists r g bl,
    average_border_color (gradient 6 4) 2 = Ok (r, g, bl) /\
    (0 <= r <= 255 /\ 0 <= g <= 255 /\ 0 <= bl <= 255) /\
    sampled_pixels (gradient 6 4) 2 ≡ₚ border_pixels (gradient 6 4) 2 /\
    r = trunc_mean (fun p => p.1.1) (border_pixels (gradient 6 4) 2) /\
    g = trunc_mean (fun p => p.1.2) (border_pixels (gradient 6 4) 2) /\
    bl = trunc_mean (fun p => p.2) (border_pixels (gradient 6 4) 2).
Proof.
  assert (H1 : 0 < 2) by lia.
  assert (H2 : 2 * 2 <= Z.min (width (gradient 6 4)) (height (gradient 6 4)))
    by (simpl; lia).
  split; [auto|].
  exact (average_border_color_mean (gradient 6 4) 2 H1 H2).
Defined.

(** The mean is truncated: the 40 samples of this border sum to 220. *)
Example average_border_color_gradient :
  average_border_color (gradient 6 4) 2 = Ok (5, 5, 5).
Proof. vm_compute. reflexivity. Qed.

Lemma average_border_color_border_only_witness :
  (size (gradient 6 6) = size spotted /\
   2 * 2 <= Z.min (width (gradient 6 6)) (height (gradient 6 6)) /\
   (forall x y, in_border (width (gradient 6 6)) (height (gradient 6 6)) 2 x y ->
      getpixel (gradient 6 6) x y = getpixel spotted x y)) /\
  average_border_color (gradient 6 6) 2 = average_border_color spotted 2.
Proof.
  assert (H1 : size (gradient 6 6) = size spotted) by reflexivity.
  assert (H2 : 2 * 2 <= Z.min (width (gradient 6 6)) (height (gradient 6 6)))
    by (simpl; lia).
  assert (H3 : forall x y,
             in_border (width (gradient 6 6)) (height (gradient 6 6)) 2 x y ->
             getpixel (gradient 6 6) x y = getpixel spotted x y).
  { intros x y (Hx & Hy & Hb). simpl in *.
    destruct ((2 <=? x) && (x <? 4) && (2 <=? y) && (y <? 4)) eqn:E; [lia|done]. }
  split; [auto|].
  exact (average_border_color_border_only (gradient 6 6) spotted 2 H1 H2 H3).
Defined.

(** The two images do differ inside. *)
Example spotted_differs : getpixel (gradient 6 6) 2 2 <> getpixel spotted 2 2.
Proof. vm_compute. discriminate. Qed.

Lemma border_crops_in_range_witness :
  (0 < 15 /\ 0 < 12) /\
  length (border_crops 15 12 10) = (4 * Z.to_nat 10)%nat /\
  (Forall (in_range 15 12) (border_crops 15 12 10) <-> 10 <= Z.min 15 12).
Proof.
  assert (H1 : 0 < 15) by lia.
  assert (H2 : 0 < 12) by lia.
  split; [auto|].
  exact (border_crops_in_range 15 12 10 H1 H2).
Defined.

(** C4 as stated fails at a 5x5 image with the default thickness 10: the
    sixth step crops the row below the image (and the row above it). *)
Lemma border_crops_out_of_range :
  5 < 2 * 10 /\
  (0, 5, 5, 6) ∈ border_crops 5 5 10 /\
  ~ in_range 5 5 (0, 5, 5, 6) /\
  ~ Forall (in_range 5 5) (border_crops 5 5 10).
Proof.
  assert (Hin : (0, 5, 5, 6) ∈ border_crops 5 5 10).
  { apply elem_of_border_crops. exists 5. split; [lia|auto]. }
  assert (Hout : ~ in_range 5 5 (0, 5, 5, 6)) by (simpl; lia).
  split; [lia|]. split; [exact Hin|]. split; [exact Hout|].
  intros Hall. rewrite Forall_forall in Hall. exact (Hout (Hall _ Hin)).
Qed.

(** What the crops outside cost: Pillow fills them with zero bands, and the
    border of an all-white 5x5 image averages to mid grey. *)
Example average_border_color_small_white :
  average_border_color (white 5 5) 10 = Ok (127, 127, 127).
Proof. vm_compute. reflexivity. Qed.

(** ** The calendar *)

Ltac month_cases m :=
  let Hm := fresh "Hm" in
  assert (Hm : m = 1 \/ m = 2 \/ m = 3 \/ m = 4 \/ m = 5 \/ m = 6 \/ m = 7 \/
               m = 8 \/ m = 9 \/ m = 10 \/ m = 11 \/ m = 12) by lia;
  destruct Hm as [-> | [-> | [-> | [-> | [-> | [-> | [-> | [-> | [-> | [-> | [-> | ->]]]]]]]]]]].

Lemma all_from_spec (check : Z -> bool) (fuel : nat) (r : Z) :
  all_from check fuel r = true ->
  forall k, r <= k < r + Z.of_nat fuel -> check k = true.
Proof.
  revert r. induction fuel as [|fuel IH]; intros r Hall k Hk; [lia|].
  simpl in Hall. apply andb_prop in Hall as [Hr Hrest].
  destruct (Z.eq_dec k r) as [->|Hne]; [done|].
  apply (IH (r + 1)); [done|lia].
Qed.

(** [ord2ymd] with its divisions named and its end set apart. *)
Lemma ord2ymd_unfold (n : Z) :
  ord2ymd n =
  let r := (n - 1) mod DI400Y in
  let n100 := r / DI100Y in
  let n4 := (r mod DI100Y) / DI4Y in
  let r4 := (r mod DI100Y) mod DI4Y in
  let n1 := r4 / 365 in
  let y := (n - 1) / DI400Y * 400 + 1 + n100 * 100 + n4 * 4 + n1 in
  if (n1 =? 4) || (n100 =? 4) then mkDate (y - 1) 12 31
  else
    let md := month_day ((n1 =? 3) && (negb (n4 =? 24) || (n100 =? 3))) (r4 mod 365) in
    mkDate y md.1 md.2.
Proof.
  unfold ord2ymd, month_day. cbv zeta.
  destruct (_ || _); [reflexivity|].
  destruct (_ <? _); reflexivity.
Qed.

(** Every day of a common year and of a leap year, by evaluation. *)
Lemma month_day_all_ok :
  all_from (month_day_ok true) 365 0 && all_from (month_day_ok false) 365 0 = true.
Proof. vm_compute. reflexivity. Qed.

Lemma month_day_spec (leapyear : bool) (n : Z) :
  0 <= n < 365 ->
  let md := month_day leapyear n in
  1 <= md.1 <= 12 /\
  1 <= md.2 <= DAYS_IN_MONTH md.1 + (if (md.1 =? 2) && leapyear then 1 else 0) /\
  DAYS_BEFORE_MONTH md.1 + (if (2 <? md.1) && leapyear then 1 else 0) + md.2 = n + 1.
Proof.
  intros Hn md.
  pose proof month_day_all_ok as Hall. apply andb_prop in Hall as [Ht Hf].
  assert (Hok : month_day_ok leapyear n = true).
  { destruct leapyear; [apply (all_from_spec _ _ _ Ht) | apply (all_from_spec _ _ _ Hf)]; lia. }
  unfold month_day_ok in Hok. fold md in Hok. destruct md as [m d]. simpl.
  repeat (apply andb_prop in Hok as [Hok ?]). lia.
Qed.

Lemma days_in_month_table (y m : Z) :
  days_in_month y m = DAYS_IN_MONTH m + (if (m =? 2) && is_leap y then 1 else 0).
Proof.
  unfold days_in_month. destruct (m =? 2) eqn:E; [|simpl; lia].
  apply Z.eqb_eq in E as ->. destruct (is_leap y); reflexivity.
Qed.

Lemma days_before_year_parts (n400 n100 n4 n1 : Z) :
  0 <= n100 <= 3 -> 0 <= n4 <= 24 -> 0 <= n1 <= 3 ->
  days_before_year (n400 * 400 + 1 + n100 * 100 + n4 * 4 + n1) =
  DI400Y * n400 + DI100Y * n100 + DI4Y * n4 + 365 * n1.
Proof.
  intros. unfold days_before_year, DI400Y, DI100Y, DI4Y.
  Z.div_mod_to_equations. lia.
Qed.

Lemma is_leap_parts (n400 n100 n4 n1 : Z) :
  0 <= n100 <= 3 -> 0 <= n4 <= 24 -> 0 <= n1 <= 3 ->
  is_leap (n400 * 400 + 1 + n100 * 100 + n4 * 4 + n1) =
  (n1 =? 3) && (negb (n4 =? 24) || (n100 =? 3)).
Proof.
  intros. unfold is_leap.
  set (y := n400 * 400 + 1 + n100 * 100 + n4 * 4 + n1).
  assert (E4 : y mod 4 = (n1 + 1) mod 4) by (subst y; Z.div_mod_to_equations; lia).
  assert (E100 : y mod 100 = (n4 * 4 + n1 + 1) mod 100)
    by (subst y; Z.div_mod_to_equations; lia).
  assert (E400 : y mod 400 = (n100 * 100 + n4 * 4 + n1 + 1) mod 400)
    by (subst y; Z.div_mod_to_equations; lia).
  rewrite E4, E100, E400.
  destruct (n1 =? 3) eqn:B1, (n4 =? 24) eqn:B4, (n100 =? 3) eqn:B100;
    cbn [andb orb negb];
    destruct (_ mod 4 =? 0) eqn:A4; try (Z.div_mod_to_equations; lia);
    destruct (_ mod 100 =? 0) eqn:A100; try (Z.div_mod_to_equations; lia);
    destruct (_ mod 400 =? 0) eqn:A400; try (Z.div_mod_to_equations; lia);
    reflexivity.
Qed.

(** [ord2ymd] gives a date of the calendar, and [ymd2ord] takes it back. *)
Lemma ord2ymd_inverse (n : Z) :
  1 <= n <= MAXORDINAL ->
  valid_date (ord2ymd n) /\ ymd2ord (ord2ymd n) = n.
Proof.
  intros Hn. rewrite ord2ymd_unfold. cbv zeta.
  set (n400 := (n - 1) / DI400Y). set (r := (n - 1) mod DI400Y).
  set (n100 := r / DI100Y). set (r100 := r mod DI100Y).
  set (n4 := r100 / DI4Y). set (r4 := r100 mod DI4Y).
  set (n1 := r4 / 365). set (r1 := r4 mod 365).
  assert (Hparts :
    n - 1 = DI400Y * n400 + r /\ 0 <= r < DI400Y /\
    r = DI100Y * n100 + r100 /\ 0 <= r100 < DI100Y /\
    r100 = DI4Y * n4 + r4 /\ 0 <= r4 < DI4Y /\
    r4 = 365 * n1 + r1 /\ 0 <= r1 < 365).
  { subst n400 r n100 r100 n4 r4 n1 r1. unfold DI400Y, DI100Y, DI4Y.
    repeat split; try (apply Z.mod_pos_bound; lia); try apply Z.div_mod; lia. }
  destruct Hparts as (E400 & B400 & E100 & B100 & E4 & B4 & E1 & B1).
  clearbody n400 r n100 r100 n4 r4 n1 r1.
  unfold MAXORDINAL, DI400Y, DI100Y, DI4Y in *.
  destruct ((n1 =? 4) || (n100 =? 4)) eqn:Hlast.
  - (* the last day of a leap year that closes a 4- or 400-year cycle *)
    assert (Hy : exists m100 m4,
      0 <= m100 <= 3 /\ 0 <= m4 <= 24 /\ (m4 = 24 -> m100 = 3) /\
      n400 * 400 + 1 + n100 * 100 + n4 * 4 + n1 - 1
        = n400 * 400 + 1 + m100 * 100 + m4 * 4 + 3 /\
      n - 1 = 146097 * n400 + 36524 * m100 + 1461 * m4 + 1460).
    { destruct (n100 =? 4) eqn:H100.
      - exists 3, 24. lia.
      - exists n100, n4. lia. }
    destruct Hy as (m100 & m4 & Hm100 & Hm4 & Hm & -> & En).
    unfold valid_date, ymd2ord. cbn [year month day].
    rewrite days_in_month_table.
    unfold days_before_month.
    rewrite is_leap_parts, days_before_year_parts by lia.
    replace ((3 =? 3) && (negb (m4 =? 24) || (m100 =? 3))) with true
      by (destruct (m4 =? 24) eqn:?, (m100 =? 3) eqn:?; simpl; lia).
    unfold DI400Y, DI100Y, DI4Y. change (DAYS_IN_MONTH 12) with 31.
    change (DAYS_BEFORE_MONTH 12) with 334. simpl. lia.
  - pose proof (month_day_spec ((n1 =? 3) && (negb (n4 =? 24) || (n100 =? 3))) r1 B1)
      as (Hm & Hd & Hsum).
    cbv zeta in Hm, Hd, Hsum.
    destruct (month_day _ r1) as [m d]. cbn [fst snd] in *.
    unfold valid_date, ymd2ord. cbn [year month day].
    rewrite days_in_month_table. unfold days_before_month.
    rewrite is_leap_parts, days_before_year_parts by lia.
    unfold DI400Y, DI100Y, DI4Y. lia.
Qed.

Lemma days_before_year_succ (y : Z) :
  days_before_year (y + 1) = days_before_year y + 365 + leap_day y.
Proof.
  unfold days_before_year, leap_day, is_leap.
  replace (y + 1 - 1) with y by lia.
  destruct (y mod 4 =? 0) eqn:E4; destruct (y mod 100 =? 0) eqn:E100;
    destruct (y mod 400 =? 0) eqn:E400; cbn [andb orb negb];
    Z.div_mod_to_equations; lia.
Qed.

Lemma days_before_year_mono (y1 y2 : Z) :
  y1 <= y2 -> days_before_year y1 <= days_before_year y2.
Proof. unfold days_before_year. intros. Z.div_mod_to_equations. lia. Qed.

(** The day of the year of a date of the calendar. *)
Lemma day_of_year_bounds (y m d : Z) :
  1 <= m <= 12 -> 1 <= d <= days_in_month y m ->
  1 <= days_before_month y m + d <= 365 + leap_day y.
Proof.
  intros Hm Hd.
  unfold days_before_month, days_in_month, leap_day, DAYS_BEFORE_MONTH,
    DAYS_IN_MONTH in *.
  destruct (is_leap y); month_cases m; simpl in *; lia.
Qed.

Lemma day_of_year_mono (y m1 d1 m2 d2 : Z) :
  1 <= m1 <= 12 -> 1 <= d1 <= days_in_month y m1 ->
  1 <= m2 <= 12 -> 1 <= d2 <= days_in_month y m2 ->
  m1 < m2 -> days_before_month y m1 + d1 < days_before_month y m2 + d2.
Proof.
  intros Hm1 Hd1 Hm2 Hd2 Hlt.
  unfold days_before_month, days_in_month, DAYS_BEFORE_MONTH, DAYS_IN_MONTH in *.
  destruct (is_leap y); month_cases m1; simpl in Hd1 |- *;
    month_cases m2; simpl in Hd2 |- *; lia.
Qed.

(** The ordinal orders the dates of the calendar as the calendar does. *)
Lemma ymd2ord_date_le (a b : date) :
  valid_date a -> valid_date b -> ymd2ord a <= ymd2ord b -> date_le a b.
Proof.
  intros (Hya & Hma & Hda) (Hyb & Hmb & Hdb) Hord.
  destruct a as [ya ma da], b as [yb mb db].
  unfold ymd2ord, date_le in *. cbn [year month day] in *.
  destruct (Z_lt_le_dec ya yb) as [?|Hy]; [by left|right].
  destruct (Z.eq_dec ya yb) as [->|Hne].
  - split; [done|].
    destruct (Z_lt_le_dec ma mb) as [?|Hm]; [by left|right].
    destruct (Z.eq_dec ma mb) as [->|Hnem]; [split; [done|lia]|].
    pose proof (day_of_year_mono yb mb db ma da Hmb Hdb Hma Hda ltac:(lia)). lia.
  - exfalso.
    pose proof (day_of_year_bounds yb mb db Hmb Hdb).
    pose proof (day_of_year_bounds ya ma da Hma Hda).
    pose proof (days_before_year_succ yb).
    pose proof (days_before_year_mono (yb + 1) ya ltac:(lia)). lia.
Qed.

Lemma date_le_antisym (a b : date) : date_le a b -> date_le b a -> a = b.
Proof.
  destruct a as [ya ma da], b as [yb mb db]. unfold date_le. cbn [year month day].
  intros Hab Hba. f_equal; lia.
Qed.

Lemma date_le_ymd2ord (a b : date) :
  valid_date a -> valid_date b -> date_le a b -> ymd2ord a <= ymd2ord b.
Proof.
  intros Ha Hb Hab.
  destruct (Z_le_gt_dec (ymd2ord a) (ymd2ord b)) as [?|Hgt]; [done|].
  assert (Hba : date_le b a) by (apply ymd2ord_date_le; [done..|lia]).
  rewrite (date_le_antisym a b Hab Hba) in Hgt. lia.
Qed.

Lemma ymd2ord_range (d : date) : valid_date d -> 1 <= ymd2ord d <= MAXORDINAL.
Proof.
  intros (Hy & Hm & Hd). unfold ymd2ord.
  pose proof (day_of_year_bounds _ _ _ Hm Hd).
  pose proof (days_before_year_succ (year d)).
  pose proof (days_before_year_mono 1 (year d) ltac:(lia)).
  pose proof (days_before_year_mono (year d + 1) 10000 ltac:(lia)).
  change (days_before_year 1) with 0 in *.
  change (days_before_year 10000) with MAXORDINAL in *.
  unfold leap_day in *. destruct (is_leap (year d)); lia.
Qed.

Lemma valid_START : valid_date (dt_date START).
Proof. unfold valid_date. simpl. vm_compute. intuition discriminate. Qed.

Lemma days_between_START (t : datetime) :
  0 <= dt_micros t < DAY_MICROS ->
  days_between t START = ymd2ord (dt_date t) - ymd2ord (dt_date START).
Proof.
  intros Hus. unfold days_between. cbn [dt_micros START].
  unfold DAY_MICROS in *. Z.div_mod_to_equations. lia.
Qed.

Lemma add_days_START (k : Z) (t : date) :
  valid_date t -> 0 <= k <= ymd2ord t - ymd2ord (dt_date START) ->
  add_days START k = Ok (mkDatetime (ord2ymd (ymd2ord (dt_date START) + k)) 0).
Proof.
  intros Ht Hk. unfold add_days. cbn [dt_micros START].
  pose proof (ymd2ord_range t Ht). pose proof (ymd2ord_range _ valid_START).
  replace (_ && _) with true; [done|]. symmetry. apply andb_true_intro. lia.
Qed.

(** ** Writing and reading a date *)

Lemma valid_dateb_true (d : date) : valid_date d -> valid_dateb d = true.
Proof. unfold valid_date, valid_dateb. intros. lia. Qed.

Lemma digit_val_digit (n : Z) : digit_val (digit n) = Some (n mod 10).
Proof.
  unfold digit. pose proof (Z.mod_pos_bound n 10 ltac:(lia)) as Hb.
  assert (Hc : n mod 10 = 0 \/ n mod 10 = 1 \/ n mod 10 = 2 \/ n mod 10 = 3 \/
               n mod 10 = 4 \/ n mod 10 = 5 \/ n mod 10 = 6 \/ n mod 10 = 7 \/
               n mod 10 = 8 \/ n mod 10 = 9) by lia.
  destruct Hc as [-> | [-> | [-> | [-> | [-> | [-> | [-> | [-> | [-> | ->]]]]]]]]];
    reflexivity.
Qed.

(** What [strftime] writes for a date of the calendar reads back as it. *)
Lemma parse_strftime (dd : date) (us : Z) :
  valid_date dd -> parse_Ymd (strftime_Ymd (mkDatetime dd us)) = Some dd.
Proof.
  intros Hv. pose proof (valid_dateb_true _ Hv) as Hb.
  destruct dd as [y m d]. unfold valid_date in Hv. cbn [dt_date year month day] in *.
  assert (Hd31 : days_in_month y m <= 31).
  { unfold days_in_month. destruct (_ && _); [lia|].
    unfold DAYS_IN_MONTH. month_cases m; simpl; lia. }
  unfold strftime_Ymd, parse_Ymd. cbn [dt_date year month day].
  rewrite !digit_val_digit. cbn [mbind option_bind].
  replace (1000 * ((y / 1000) mod 10) + 100 * ((y / 100) mod 10) +
           10 * ((y / 10) mod 10) + y mod 10) with y
    by (Z.div_mod_to_equations; lia).
  replace (10 * ((m / 10) mod 10) + m mod 10) with m by (Z.div_mod_to_equations; lia).
  replace (10 * ((d / 10) mod 10) + d mod 10) with d by (Z.div_mod_to_equations; lia).
  rewrite Hb. reflexivity.
Qed.

Example strftime_leap_day :
  strftime_Ymd (mkDatetime (ord2ymd (ymd2ord (mkDate 2024 2 28) + 1)) 0) = "2024-02-29".
Proof. vm_compute. reflexivity. Qed.

(** ** The date selector *)

Section DateSelector.
Context `{Pillow}.

(** C7.  When randomize is requested (and today is a date of the calendar
    not before 2015-01-01), the date parameter is written [YYYY-MM-DD] and
    reads back as a date of the calendar from 2015-01-01 to today inclusive:
    the start date plus the offset drawn by [randint] from
    [0 .. days_between(2015-01-01, today)] inclusive, where every offset can
    be drawn and different offsets give different dates. *)
Theorem random_date_param
    (w : World) (settings : gmap string string) (api_key : string) :
  settings !! "randomizeApod" = Some "true" ->
  valid_date (dt_date (today w)) ->
  0 <= dt_micros (today w) < DAY_MICROS ->
  date_le (dt_date START) (dt_date (today w)) ->
  random_date_chosen w settings api_key.
Proof.
  intros Hflag Hvalid Hus Hle. unfold random_date_chosen.
  set (delta := days_between (today w) START).
  assert (Hdelta : delta = ymd2ord (dt_date (today w)) - ymd2ord (dt_date START))
    by (apply days_between_START; done).
  pose proof (date_le_ymd2ord _ _ valid_START Hvalid Hle) as Hord.
  pose proof (ymd2ord_range _ Hvalid) as Hmax.
  pose proof (ymd2ord_range _ valid_START) as Hmin.
  set (k := entropy w mod (delta + 1)).
  assert (Hk : 0 <= k <= delta).
  { subst k. pose proof (Z.mod_pos_bound (entropy w) (delta + 1) ltac:(lia)). lia. }
  set (n := ymd2ord (dt_date START) + k).
  destruct (ord2ymd_inverse n ltac:(lia)) as [Hvd Hinv].
  assert (Hrand : forall e, randint e 0 delta = Ok (0 + e mod (delta + 1))).
  { intros e. unfold randint. destruct (delta <? 0) eqn:E; [lia|]. by rewrite Z.sub_0_r. }
  assert (Hadd : add_days START k = Ok (mkDatetime (ord2ymd n) 0)).
  { apply (add_days_START k (dt_date (today w))); [done|lia]. }
  exists k, (ord2ymd n). split_and!.
  - by rewrite Hrand.
  - lia.
  - lia.
  - done.
  - unfold query_params. rewrite decide_True by done. fold delta.
    rewrite Hrand, Z.add_0_l. fold k. by rewrite Hadd.
  - by apply parse_strftime.
  - done.
  - apply ymd2ord_date_le; [apply valid_START|done|lia].
  - apply ymd2ord_date_le; [done..|lia].
  - intros j Hj. rewrite Hrand, Z.mod_small by lia. done.
  - intros j dj Hj Hjd Hstr.
    pose proof (add_days_START j _ Hvalid ltac:(lia)) as Hj'.
    destruct (ord2ymd_inverse (ymd2ord (dt_date START) + j) ltac:(lia)) as [Hvj Hinvj].
    set (nj := ymd2ord (dt_date START) + j) in *.
    assert (dj = mkDatetime (ord2ymd nj) 0) as -> by congruence.
    pose proof (parse_strftime (ord2ymd nj) 0 Hvj) as Hp1.
    pose proof (parse_strftime (ord2ymd n) 0 Hvd) as Hp2.
    assert (Heq : ord2ymd nj = ord2ymd n) by congruence.
    rewrite Heq in Hinvj. lia.
Qed.

(** C6, amended.  For every settings mapping: when [randomizeApod] is the
    string "true" a random date is chosen, whatever [customDate] is; when it
    is anything else or absent and [customDate] is a non-empty string, that
    string is the date parameter, unmodified; otherwise the date parameter
    is omitted. *)
Theorem date_selector_cases
    (w : World) (settings : gmap string string) (api_key : string) :
  let base : gmap string string := {[ "api_key" := api_key ]} in
  (settings !! "randomizeApod" = Some "true" ->
   query_params w settings api_key =
     match randint (entropy w) 0 (days_between (today w) START) with
     | Raise e => Raise e
     | Ok k =>
         match add_days START k with
         | Raise e => Raise e
         | Ok d => Ok (<["date" := strftime_Ymd d]> base)
         end
     end) /\
  (settings !! "randomizeApod" <> Some "true" ->
   forall v, present (settings !! "customDate") v ->
     query_params w settings api_key = Ok (<["date" := v]> base)) /\
  (settings !! "randomizeApod" <> Some "true" ->
   absent (settings !! "customDate") ->
     query_params w settings api_key = Ok base /\ base !! "date" = None).
Proof.
  intros base. unfold query_params. fold base. split_and!.
  - intros Hflag. by rewrite decide_True by done.
  - intros Hflag v [Hv Hne]. rewrite decide_False by done.
    rewrite Hv. simpl. apply String.eqb_neq in Hne. by rewrite Hne.
  - intros Hflag Habs. rewrite decide_False by done.
    split; [|done]. by destruct Habs as [-> | ->].
Qed.
End DateSelector.

Lemma random_date_param_witness :
  (randomize_settings !! "randomizeApod" = Some "true" /\
   valid_date (dt_date (today (demo_world video_of_the_day))) /\
   0 <= dt_micros (today (demo_world video_of_the_day)) < DAY_MICROS /\
   date_le (dt_date START) (dt_date (today (demo_world video_of_the_day)))) /\
  random_date_chosen (demo_world video_of_the_day) randomize_settings "DEMO_KEY".
Proof.
  assert (H1 : randomize_settings !! "randomizeApod" = Some "true") by reflexivity.
  assert (H2 : valid_date (dt_date (today (demo_world video_of_the_day))))
    by (unfold valid_date; vm_compute; intuition discriminate).
  assert (H3 : 0 <= dt_micros (today (demo_world video_of_the_day)) < DAY_MICROS)
    by (vm_compute; intuition discriminate).
  assert (H4 : date_le (dt_date START) (dt_date (today (demo_world video_of_the_day))))
    by (left; simpl; lia).
  split; [auto|].
  exact (random_date_param _ _ "DEMO_KEY" H1 H2 H3 H4).
Defined.

(** The run behind the witness: on 2024-02-29 the range has 3347 offsets and
    the draw 1234567 mod 3347 = 2871 gives day 2871 after 2015-01-01. *)
Example random_date_run :
  query_params (demo_world video_of_the_day) randomize_settings "DEMO_KEY"
  = Ok (<["date" := "2022-11-11"]> {[ "api_key" := "DEMO_KEY" ]}).
Proof. vm_compute. reflexivity. Qed.

(** C6 as stated fails for a randomize key that is there without being
    "true": the custom date is passed although the key is not absent. *)
Lemma custom_date_passed_with_flag_present :
  ~ custom_date_rule (demo_world video_of_the_day) flag_off_settings "DEMO_KEY".
Proof.
  intros [Hfwd _].
  destruct Hfwd as [Hnone _]; [|discriminate Hnone].
  exists "2024-05-01". split; reflexivity.
Qed.

(** ** The caption *)

(** C5.  The caption is a function of the optional title and copyright
    alone (a missing one and an empty one count alike): both there gives
    "{title} (© {copyright})", the title alone gives the title, the
    copyright alone gives "© {copyright}", neither gives the empty
    string. *)
Theorem caption_cases (data : gmap string string) :
  (forall t c, present (data !! "title") t -> present (data !! "copyright") c ->
     caption data = t +:+ " (© " +:+ c +:+ ")") /\
  (forall t, present (data !! "title") t -> absent (data !! "copyright") ->
     caption data = t) /\
  (forall c, absent (data !! "title") -> present (data !! "copyright") c ->
     caption data = "© " +:+ c) /\
  (absent (data !! "title") -> absent (data !! "copyright") -> caption data = "").
Proof.
  unfold caption, present, absent. split_and!.
  - intros t c [-> Ht] [-> Hc]. simpl.
    apply String.eqb_neq in Ht, Hc. by rewrite Ht, Hc.
  - intros t [-> Ht] Hc. simpl. apply String.eqb_neq in Ht. rewrite Ht.
    by destruct Hc as [-> | ->].
  - intros c Ht [-> Hc]. simpl. apply String.eqb_neq in Hc. rewrite Hc.
    by destruct Ht as [-> | ->].
  - intros Ht Hc. by destruct Ht as [-> | ->], Hc as [-> | ->].
Qed.

(** The four examples of the specification. *)
Example caption_both :
  caption {[ "title" := "Galaxy"; "copyright" := "NASA" ]} = "Galaxy (© NASA)".
Proof. reflexivity. Qed.

Example caption_title_only : caption {[ "title" := "Galaxy" ]} = "Galaxy".
Proof. reflexivity. Qed.

Example caption_copyright_only : caption {[ "copyright" := "NASA" ]} = "© NASA".
Proof. reflexivity. Qed.

Example caption_neither : caption ∅ = "".
Proof. reflexivity. Qed.

(** ** The network protocol of [generate_image] *)

Section Protocol.
Context `{Pillow}.

Lemma truthy_Some (v : string) : v <> "" -> truthy (Some v) = true.
Proof. intros Hv. simpl. apply String.eqb_neq in Hv. by rewrite Hv. Qed.

(** C8.  For every metadata response whose media kind is not "image",
    [generate_image] raises the plugin's error and creates no image; the
    metadata request is the only request of the invocation, so no image
    download is attempted and no image bytes are fetched. *)
Theorem non_image_aborts
    (w : World) (settings : gmap string string) (s : State)
    (key : string) (params : gmap string string) (r : Response)
    (data : gmap string string) :
  load_env_key w "NASA_SECRET" = Some key -> key <> "" ->
  query_params w settings key = Ok params ->
  http_get w (mkRequest (Some APOD_URL) params) = Some r ->
  json r = Some data ->
  data !! "media_type" <> Some "image" ->
  exists msg,
    generate_image w settings s =
      (Raise (RuntimeError msg),
       mkState (heap s) (sent s ++ [mkRequest (Some APOD_URL) params])) /\
    (status_code r = 200 -> msg = "APOD is not an image today.").
Proof.
  intros Hkey Hne Hparams Hget Hjson Hmedia.
  unfold generate_image. rewrite Hkey, (truthy_Some key Hne). simpl.
  unfold bind at 1. unfold lift at 1. rewrite Hparams.
  unfold bind at 1. unfold requests_get at 1. rewrite Hget.
  destruct (status_code r =? 200) eqn:Hstatus; simpl.
  - exists "APOD is not an image today.". split; [|done].
    unfold bind at 1. unfold lift at 1. rewrite Hjson.
    by rewrite bool_decide_eq_false_2 by done.
  - eexists. split; [reflexivity|]. lia.
Qed.
End Protocol.

Lemma non_image_aborts_witness :
  (load_env_key (demo_world video_of_the_day) "NASA_SECRET" = Some "DEMO_KEY" /\
   "DEMO_KEY" <> "" /\
   query_params (demo_world video_of_the_day) flag_off_settings "DEMO_KEY"
     = Ok (<["date" := "2024-05-01"]> {[ "api_key" := "DEMO_KEY" ]}) /\
   json video_of_the_day <> None) /\
  exists msg,
    generate_image (demo_world video_of_the_day) flag_off_settings (one_image (white 5 5)) =
      (Raise (RuntimeError msg),
       mkState (heap (one_image (white 5 5)))
         (sent (one_image (white 5 5)) ++
          [mkRequest (Some APOD_URL)
             (<["date" := "2024-05-01"]> {[ "api_key" := "DEMO_KEY" ]})])) /\
    (status_code video_of_the_day = 200 -> msg = "APOD is not an image today.").
Proof.
  assert (H1 : load_env_key (demo_world video_of_the_day) "NASA_SECRET" = Some "DEMO_KEY")
    by reflexivity.
  assert (H2 : "DEMO_KEY" <> "") by discriminate.
  assert (H3 : query_params (demo_world video_of_the_day) flag_off_settings "DEMO_KEY"
               = Ok (<["date" := "2024-05-01"]> {[ "api_key" := "DEMO_KEY" ]}))
    by reflexivity.
  assert (H4 : http_get (demo_world video_of_the_day)
                 (mkRequest (Some APOD_URL)
                    (<["date" := "2024-05-01"]> {[ "api_key" := "DEMO_KEY" ]}))
               = Some video_of_the_day) by reflexivity.
  assert (H5 : json video_of_the_day
               = Some {[ "media_type" := "video"; "title" := "Eclipse";
                         "url" := "https://example.org/eclipse" ]}) by reflexivity.
  assert (H6 : ({[ "media_type" := "video"; "title" := "Eclipse";
                   "url" := "https://example.org/eclipse" ]} : gmap string string)
               !! "media_type" <> Some "image") by (vm_compute; discriminate).
  split; [rewrite H5; auto|].
  exact (non_image_aborts _ flag_off_settings (one_image (white 5 5)) _ _ _ _
           H1 H2 H3 H4 H5 H6).
Defined.

(** An image of the day is downloaded: the second request goes to the
    high-resolution address. *)
Example image_is_requested :
  req_url <$> sent (generate_image
    (demo_world {| status_code := 200;
                   json := Some {[ "media_type" := "image";
                                   "hdurl" := "https://example.org/hd.jpg";
                                   "url" := "https://example.org/sd.jpg" ]};
                   content := [] |})
    ∅ (one_image (white 5 5))).2
  = [Some APOD_URL; Some "https://example.org/hd.jpg"].
Proof. vm_compute. reflexivity. Qed.

(** * Further properties *)

(** ** The border colour, beyond the claims *)

Section BorderMore.
Context `{Pillow}.

Lemma length_getdata (im : Image) :
  length (getdata im) = (Z.to_nat (height im) * Z.to_nat (width im))%nat.
Proof.
  unfold getdata.
  rewrite (length_bind_const _ _ (Z.to_nat (width im))), length_seqZ; [done|].
  intros y. rewrite (length_bind_const _ _ 1%nat), length_seqZ; [lia|done].
Qed.

(** Every step of the two loops extends the list by two crops in full, a
    pixel for each position of the crop, inside the image or not. *)
Lemma length_sampled_pixels (im : Image) (b : Z) :
  length (sampled_pixels im b)
  = (Z.to_nat b * (2 * Z.to_nat (width im)) + Z.to_nat b * (2 * Z.to_nat (height im)))%nat.
Proof.
  unfold sampled_pixels, border_crops.
  rewrite bind_app, !bind_bind, length_app.
  rewrite (length_bind_const _ _ (2 * Z.to_nat (width im))%nat).
  2: { intros y. rewrite bind_cons, bind_singleton, length_app, !length_getdata.
       simpl.
       replace (y + 1 - y) with 1 by lia.
       replace (height im - y - (height im - y - 1)) with 1 by lia. lia. }
  rewrite (length_bind_const _ _ (2 * Z.to_nat (height im))%nat).
  2: { intros x. rewrite bind_cons, bind_singleton, length_app, !length_getdata.
       simpl.
       replace (x + 1 - x) with 1 by lia.
       replace (width im - x - (width im - x - 1)) with 1 by lia. lia. }
  rewrite length_seqZ. lia.
Qed.

Lemma sampled_nonempty (im : Image) (b : Z) :
  0 < b -> proper im -> sampled_pixels im b <> [].
Proof.
  intros Hb [Hw Hh] E. pose proof (length_sampled_pixels im b) as L.
  rewrite E in L. simpl in L. nia.
Qed.

(** The mean of a list with a pixel in it is a colour of bytes. *)
Lemma average_border_color_bands (im : Image) (b : Z) :
  sampled_pixels im b <> [] ->
  exists c, average_border_color im b = Ok c /\ band_ok c.
Proof.
  intros Hne. pose proof (sampled_all_ok im b) as Hok.
  eexists. split; [by apply average_border_color_run|].
  unfold band_ok. cbn [fst snd].
  repeat split; apply trunc_mean_range; try done;
    (eapply Forall_impl; [exact Hok|]; intros p (? & ? & ?); lia).
Qed.

(** X16.  [average_border_color] averages [2 * border_px * (w + h)] pixels,
    whatever the sizes: the corners count twice, a crop beyond the image
    counts in full, and nothing is left out when the bands overlap. *)
Theorem sample_count (im : Image) (border_px : Z) :
  0 <= border_px -> 0 <= width im -> 0 <= height im ->
  Z.of_nat (length (sampled_pixels im border_px))
  = 2 * border_px * (width im + height im).
Proof.
  intros Hb Hw Hh. rewrite length_sampled_pixels. nia.
Qed.

(** X17.  Whatever the positive thickness, also one beyond the image, an
    image with a pixel gets a colour from [average_border_color], and each
    band of it is an integer from 0 to 255. *)
Theorem average_border_color_total (im : Image) (border_px : Z) :
  0 < border_px -> proper im ->
  exists c, average_border_color im border_px = Ok c /\ band_ok c.
Proof.
  intros Hb Him. by apply average_border_color_bands, sampled_nonempty.
Qed.

(** X18.  With a thickness of zero or less no pixel is sampled, and
    [average_border_color] raises [TypeError]: the mean of no pixel is one
    number, which cannot be unpacked into bands. *)
Theorem average_border_color_no_border (im : Image) (border_px : Z) :
  border_px <= 0 -> average_border_color im border_px = Raise TypeError.
Proof.
  intros Hb. unfold average_border_color, border_crops. simpl.
  rewrite (seqZ_nil 0 border_px) by done. reflexivity.
Qed.

Lemma sum_band_const f (l : list (Z * Z * Z)) (v : Z * Z * Z) :
  Forall (fun p => p = v) l -> sum_band f l = f v * Z.of_nat (length l).
Proof.
  unfold sum_band. induction 1 as [|p l -> _ IH]; [simpl; lia|].
  simpl foldr. rewrite IH. simpl length. lia.
Qed.

Lemma trunc_mean_const f (l : list (Z * Z * Z)) (v : Z * Z * Z) :
  l <> [] -> Forall (fun p => p = v) l -> trunc_mean f l = f v.
Proof.
  intros Hne Hall. unfold trunc_mean. rewrite (sum_band_const f l v Hall).
  apply Z.quot_mul. destruct l; [done|simpl; lia].
Qed.

(** X19.  When every pixel of the border of thickness [border_px] (at most
    the smaller side) has one colour, [average_border_color] returns that
    colour, whatever the interior holds. *)
Theorem average_border_color_uniform (im : Image) (border_px : Z) (c : RGB) :
  0 < border_px -> border_px <= Z.min (width im) (height im) ->
  (forall x y, in_border (width im) (height im) border_px x y ->
     rgb_of (getpixel im x y) = c) ->
  average_border_color im border_px = Ok (rgb_ints c).
Proof.
  intros Hb Hmin Hc.
  assert (Him : proper im) by (split; lia).
  assert (Hall : Forall (fun p => p = rgb_ints c) (sampled_pixels im border_px)).
  { rewrite sampled_interleaved by lia.
    rewrite Forall_app, !Forall_bind, !Forall_seqZ.
    split; intros k Hk; unfold compose; rewrite Forall_app; unfold row, column;
      rewrite !Forall_fmap, !Forall_seqZ; split; intros j Hj; unfold compose;
      unfold rgb_at; rewrite Hc; try done; unfold in_border; lia. }
  rewrite average_border_color_run by (by apply sampled_nonempty).
  rewrite !(trunc_mean_const _ _ (rgb_ints c)) by (done || by apply sampled_nonempty).
  by destruct (rgb_ints c) as [[r g] bl].
Qed.

Lemma clip8_band (v : Z) : 0 <= v <= 255 -> band (clip8 v) = v.
Proof.
  intros Hv. unfold band, clip8.
  replace (Z.max 0 (Z.min 255 v)) with v by lia.
  destruct (Byte.of_N (Z.to_N v)) as [b|] eqn:E.
  - apply Byte.to_of_N in E. lia.
  - apply Byte.of_N_None_iff in E. lia.
Qed.

(** A colour of bytes comes back from the ink as it went in. *)
Lemma rgb_ints_ink (c : Z * Z * Z) : band_ok c -> rgb_ints (ink c) = c.
Proof.
  destruct c as [[r g] b]. intros (Hr & Hg & Hb). simpl in *.
  by rewrite !clip8_band.
Qed.
End BorderMore.

(** ** [generate_image] step by step *)

Section Run.
Context `{Pillow}.

(** [generate_image] step by step, up to the download. *)
Lemma generate_image_run (w : World) (settings : gmap string string) (s : State) :
  generate_image w settings s =
  let api_key := load_env_key w "NASA_SECRET" in
  if negb (truthy api_key)
  then (Raise (RuntimeError "NASA API Key not configured."), s)
  else
    match query_params w settings (default "" api_key) with
    | Raise e => (Raise e, s)
    | Ok params =>
        let s1 := mkState (heap s) (sent s ++ [mkRequest (Some APOD_URL) params]) in
        match http_get w (mkRequest (Some APOD_URL) params) with
        | None => (Raise RequestException, s1)
        | Some r =>
            if negb (status_code r =? 200)
            then (Raise (RuntimeError "Failed to retrieve NASA APOD."), s1)
            else
              match json r with
              | None => (Raise ValueError, s1)
              | Some data =>
                  if negb (bool_decide (data !! "media_type" = Some "image"))
                  then (Raise (RuntimeError "APOD is not an image today."), s1)
                  else
                    bind (load_image w (py_or (data !! "hdurl") (data !! "url")))
                         (render w settings (caption data)) s1
              end
        end
    end.
Proof.
  unfold generate_image. cbv zeta.
  destruct (negb (truthy _)); [reflexivity|].
  unfold bind at 1. unfold lift at 1.
  destruct (query_params _ _ _) as [params|e]; [|reflexivity].
  unfold bind at 1. unfold requests_get at 1.
  destruct (http_get w _) as [r|]; [|reflexivity].
  destruct (negb (status_code r =? 200)); [reflexivity|].
  unfold bind at 1. unfold lift at 1.
  destruct (json r) as [data|]; [|reflexivity].
  destruct (negb (bool_decide _)); reflexivity.
Qed.

(** [generate_image] once the metadata of an image of the day is in. *)
Lemma generate_image_image (w : World) (settings : gmap string string) (s : State)
    (key : string) (params : gmap string string) (r : Response)
    (data : gmap string string) :
  load_env_key w "NASA_SECRET" = Some key -> key <> "" ->
  query_params w settings key = Ok params ->
  http_get w (mkRequest (Some APOD_URL) params) = Some r ->
  status_code r = 200 -> json r = Some data ->
  data !! "media_type" = Some "image" ->
  generate_image w settings s =
  bind (load_image w (py_or (data !! "hdurl") (data !! "url")))
       (render w settings (caption data))
       (mkState (heap s) (sent s ++ [mkRequest (Some APOD_URL) params])).
Proof.
  intros Hkey Hne Hparams Hget Hstatus Hjson Hmedia.
  rewrite generate_image_run. cbv zeta.
  rewrite Hkey, (truthy_Some key Hne). simpl.
  rewrite Hparams, Hget, Hstatus, Hjson. simpl.
  by rewrite bool_decide_eq_true_2 by done.
Qed.
End Run.

Section Render.
Context `{Pillow}.

Lemma render_plain (w : World) (settings : gmap string string) (text : string)
    (image : loc) (im : Image) (s : State) :
  settings !! "autoResize" <> Some "true" ->
  heap s !! image = Some im ->
  render w settings text image s =
  (Ok image,
   mkState (<[image := draw_text w im (caption_xy w text (size im)) text]> (heap s))
           (sent s)).
Proof.
  intros Hoff Him. unfold render.
  rewrite bool_decide_eq_false_2 by done.
  unfold bind, ret, deref, store. rewrite Him. reflexivity.
Qed.

Lemma render_resized (w : World) (settings : gmap string string) (text : string)
    (image : loc) (im : Image) (s : State) :
  settings !! "autoResize" = Some "true" ->
  heap s !! image = Some im ->
  render w settings text image s =
  match background settings im with
  | Raise e => (Raise e, s)
  | Ok bg =>
      let l' := fresh (dom (heap s)) in
      match thumbnail_result im (resolution w) with
      | Raise e => (Raise e, mkState (<[l' := im]> (heap s)) (sent s))
      | Ok r =>
          let h1 := <[l' := r]> (heap s) in
          if ((resolution w).1 <? 0) || ((resolution w).2 <? 0)
          then (Raise ValueError, mkState h1 (sent s))
          else
            (Ok (fresh (dom h1)),
             mkState
               (<[fresh (dom h1) :=
                    draw_text w (composed r (resolution w) bg)
                      (caption_xy w text (resolution w)) text]> h1)
               (sent s))
      end
  end.
Proof.
  intros Hon Him. unfold render, background.
  rewrite bool_decide_eq_true_2 by done. cbv zeta.
  set (fwb := fit_with_background image (resolution w)).
  assert (Hfwb : forall bg, fwb bg s =
    let l' := fresh (dom (heap s)) in
    match thumbnail_result im (resolution w) with
    | Raise e => (Raise e, mkState (<[l' := im]> (heap s)) (sent s))
    | Ok r =>
        let h1 := <[l' := r]> (heap s) in
        if ((resolution w).1 <? 0) || ((resolution w).2 <? 0)
        then (Raise ValueError, mkState h1 (sent s))
        else (Ok (fresh (dom h1)),
              mkState (<[fresh (dom h1) := composed r (resolution w) bg]> h1) (sent s))
    end).
  { intros bg. subst fwb. by rewrite fit_with_background_run, Him. }
  clearbody fwb.
  assert (Hrest : forall bg,
    bind (fwb bg) (fun image0 =>
      do im0 <- deref image0;
      store image0
        (draw_text w im0
           (width im0 - ((textbbox w text).1.2 - (textbbox w text).1.1.1) - 15,
            height im0 - ((textbbox w text).2 - (textbbox w text).1.1.2) - 15) text);;
      ret image0) s =
    let l' := fresh (dom (heap s)) in
    match thumbnail_result im (resolution w) with
    | Raise e => (Raise e, mkState (<[l' := im]> (heap s)) (sent s))
    | Ok r =>
        let h1 := <[l' := r]> (heap s) in
        if ((resolution w).1 <? 0) || ((resolution w).2 <? 0)
        then (Raise ValueError, mkState h1 (sent s))
        else
          (Ok (fresh (dom h1)),
           mkState
             (<[fresh (dom h1) :=
                  draw_text w (composed r (resolution w) bg)
                    (caption_xy w text (resolution w)) text]> h1)
             (sent s))
    end).
  { intros bg. unfold bind at 1. rewrite Hfwb. cbv zeta.
    destruct (thumbnail_result im (resolution w)) as [r|e]; [|done].
    destruct (_ || _); [done|].
    unfold bind, deref, store, ret. simpl. rewrite lookup_insert_eq. simpl.
    by rewrite insert_insert_eq. }
  destruct (bool_decide (settings !! "autoBgColor" = Some "true")).
  - unfold bind at 1. unfold bind at 1. unfold bind at 1. unfold deref at 1.
    rewrite Him. unfold lift at 1.
    destruct (average_border_color im 10) as [bg|e]; [|done].
    exact (Hrest bg).
  - unfold bind at 1. unfold bind at 1. unfold ret at 1. exact (Hrest (0, 0, 0)).
Qed.
End Render.

Section Generate.
Context `{Pillow}.

Lemma load_image_run (w : World) (url : option string) (s : State) :
  load_image w url s =
  let s1 := mkState (heap s) (sent s ++ [mkRequest url ∅]) in
  match http_get w (mkRequest url ∅) with
  | None => (Raise (RuntimeError "Failed to load APOD image."), s1)
  | Some r2 =>
      match image_open w (content r2) with
      | None => (Raise (RuntimeError "Failed to load APOD image."), s1)
      | Some im =>
          (Ok (fresh (dom (heap s))),
           mkState (<[fresh (dom (heap s)) := im]> (heap s)) (sent s1))
      end
  end.
Proof.
  unfold load_image, requests_get, alloc. cbv zeta.
  destruct (http_get w _) as [r2|]; [|done].
  destruct (image_open w _); reflexivity.
Qed.

Lemma truthy_absent (o : option string) : absent o -> truthy o = false.
Proof. by intros [-> | ->]. Qed.

(** X1.  Without a key in the environment (none, or an empty one)
    [generate_image] raises the plugin's error at once: no request is sent
    and the store is left as it was. *)
Theorem no_key_no_request (w : World) (settings : gmap string string) (s : State) :
  absent (load_env_key w "NASA_SECRET") ->
  generate_image w settings s =
  (Raise (RuntimeError "NASA API Key not configured."), s).
Proof.
  intros Habs. unfold generate_image. by rewrite (truthy_absent _ Habs).
Qed.

(** X3.  A metadata answer with a status other than 200 makes
    [generate_image] raise the plugin's error after that one request,
    whatever the body says: no image is requested and none is created. *)
Theorem bad_status_aborts
    (w : World) (settings : gmap string string) (s : State)
    (key : string) (params : gmap string string) (r : Response) :
  load_env_key w "NASA_SECRET" = Some key -> key <> "" ->
  query_params w settings key = Ok params ->
  http_get w (mkRequest (Some APOD_URL) params) = Some r ->
  status_code r <> 200 ->
  generate_image w settings s =
  (Raise (RuntimeError "Failed to retrieve NASA APOD."),
   mkState (heap s) (sent s ++ [mkRequest (Some APOD_URL) params])).
Proof.
  intros Hkey Hne Hparams Hget Hstatus.
  unfold generate_image. rewrite Hkey, (truthy_Some key Hne). simpl.
  unfold bind at 1. unfold lift at 1. rewrite Hparams.
  unfold bind at 1. unfold requests_get at 1. rewrite Hget.
  apply Z.eqb_neq in Hstatus. by rewrite Hstatus.
Qed.

(** X4.  The image is asked of the high-resolution address when there is
    one and of the standard one otherwise, without the key or any other
    parameter; when the download or the decoding fails [generate_image]
    raises the plugin's own error and leaves no image behind. *)
Theorem image_load_failure
    (w : World) (settings : gmap string string) (s : State)
    (key : string) (params : gmap string string) (r : Response)
    (data : gmap string string) :
  load_env_key w "NASA_SECRET" = Some key -> key <> "" ->
  query_params w settings key = Ok params ->
  http_get w (mkRequest (Some APOD_URL) params) = Some r ->
  status_code r = 200 -> json r = Some data ->
  data !! "media_type" = Some "image" ->
  (forall r2, http_get w (mkRequest (py_or (data !! "hdurl") (data !! "url")) ∅) = Some r2 ->
     image_open w (content r2) = None) ->
  load_failure_outcome w settings s params data.
Proof.
  intros Hkey Hne Hparams Hget Hstatus Hjson Hmedia Hfail.
  unfold load_failure_outcome.
  exists (py_or (data !! "hdurl") (data !! "url")). split_and!.
  - rewrite (generate_image_image w settings s key params r data) by done.
    unfold bind. rewrite load_image_run. cbv zeta. simpl heap. simpl sent.
    rewrite <- app_assoc. simpl.
    destruct (http_get w (mkRequest (py_or (data !! "hdurl") (data !! "url")) ∅))
      as [r2|] eqn:Hget2; [|done].
    by rewrite (Hfail r2 eq_refl).
  - intros h [Hh Hne']. unfold py_or. rewrite Hh, (truthy_Some h Hne'). done.
  - intros Habs. unfold py_or. by rewrite (truthy_absent _ Habs).
Qed.

(** X5.  Without [autoResize] set to "true" [generate_image] returns the
    image of the day as decoded, a new object of the store, with the
    caption drawn on it so that its box ends 15 pixels from the right and
    bottom edges; two requests were sent, the second to the image address
    without parameters. *)
Theorem image_of_the_day_plain
    (w : World) (settings : gmap string string) (s : State)
    (key : string) (params : gmap string string) (r r2 : Response)
    (data : gmap string string) (im : Image) :
  load_env_key w "NASA_SECRET" = Some key -> key <> "" ->
  query_params w settings key = Ok params ->
  http_get w (mkRequest (Some APOD_URL) params) = Some r ->
  status_code r = 200 -> json r = Some data ->
  data !! "media_type" = Some "image" ->
  http_get w (mkRequest (py_or (data !! "hdurl") (data !! "url")) ∅) = Some r2 ->
  image_open w (content r2) = Some im ->
  settings !! "autoResize" <> Some "true" ->
  let l := fresh (dom (heap s)) in
  let bbox := textbbox w (caption data) in
  generate_image w settings s =
  (Ok l,
   mkState
     (<[l := draw_text w im
              (width im - (bbox.1.2 - bbox.1.1.1) - 15,
               height im - (bbox.2 - bbox.1.1.2) - 15)
              (caption data)]> (heap s))
     (sent s ++ [mkRequest (Some APOD_URL) params;
                 mkRequest (py_or (data !! "hdurl") (data !! "url")) ∅])) /\
  heap s !! l = None.
Proof.
  intros Hkey Hne Hparams Hget Hstatus Hjson Hmedia Hget2 Hopen Hoff l bbox.
  split; [|apply fresh_heap_None].
  rewrite (generate_image_image w settings s key params r data) by done.
  unfold bind. rewrite load_image_run. cbv zeta. simpl heap. simpl sent.
  rewrite Hget2, Hopen, <- app_assoc. simpl app.
  rewrite (render_plain w settings _ _ im) by (done || apply lookup_insert_eq).
  simpl. by rewrite insert_insert_eq.
Qed.
End Generate.

Section Generate2.
Context `{Pillow}.

Lemma background_ok (settings : gmap string string) (im : Image) :
  proper im -> exists bg, background settings im = Ok bg /\ band_ok bg.
Proof.
  intros Him. unfold background. destruct (bool_decide _).
  - apply average_border_color_bands, sampled_nonempty; [lia|done].
  - exists (0, 0, 0). split; [done|]. unfold band_ok. simpl. lia.
Qed.

(** What [render] may do to the store: objects are added, none is changed
    but the one it was given, and no request is sent. *)
Lemma render_footprint (w : World) (settings : gmap string string) (text : string)
    (image : loc) (im : Image) (s : State) (h0 : gmap loc Image) :
  heap s !! image = Some im -> h0 ⊆ heap s -> h0 !! image = None ->
  h0 ⊆ heap (render w settings text image s).2 /\
  sent (render w settings text image s).2 = sent s.
Proof.
  intros Him Hsub Hnew.
  destruct (decide (settings !! "autoResize" = Some "true")) as [Hon|Hoff].
  - rewrite (render_resized w settings text image im) by done.
    assert (F1 : forall x, h0 ⊆ <[fresh (dom (heap s)) := x]> (heap s)).
    { intros x. etrans; [exact Hsub|]. apply insert_subseteq, fresh_heap_None. }
    destruct (background settings im) as [bg|e]; [|by split]. cbv zeta.
    destruct (thumbnail_result im (resolution w)) as [r|e]; [|by split; [apply F1|]].
    destruct (_ || _); [by split; [apply F1|]|].
    split; [|done]. simpl. etrans; [apply (F1 r)|].
    apply insert_subseteq, not_elem_of_dom, is_fresh.
  - rewrite (render_plain w settings text image im) by done.
    split; [|done]. simpl. by apply insert_subseteq_r.
Qed.

(** X7.  Whatever the settings and the world, and whether it returns or
    raises: [generate_image] changes no object that was in the store, sends
    at most two requests, and sends parameters (the key is one) to the APOD
    address only. *)
Theorem generate_image_footprint
    (w : World) (settings : gmap string string) (s : State) :
  heap s ⊆ heap (generate_image w settings s).2 /\
  exists reqs,
    sent (generate_image w settings s).2 = sent s ++ reqs /\
    (length reqs <= 2)%nat /\
    Forall (fun rq => req_url rq = Some APOD_URL \/ req_params rq = ∅) reqs.
Proof.
  rewrite generate_image_run. cbv zeta.
  assert (Nil : heap s ⊆ heap s /\
    exists reqs, sent s = sent s ++ reqs /\ (length reqs <= 2)%nat /\
      Forall (fun rq => req_url rq = Some APOD_URL \/ req_params rq = ∅) reqs).
  { split; [done|]. exists []. split_and!; [by rewrite app_nil_r|simpl; lia|constructor]. }
  destruct (negb (truthy _)); [exact Nil|].
  destruct (query_params _ _ _) as [params|e]; [|exact Nil].
  set (meta := mkRequest (Some APOD_URL) params).
  assert (One : heap s ⊆ heap s /\
    exists reqs, sent s ++ [meta] = sent s ++ reqs /\ (length reqs <= 2)%nat /\
      Forall (fun rq => req_url rq = Some APOD_URL \/ req_params rq = ∅) reqs).
  { split; [done|]. exists [meta]. split_and!; [done|simpl; lia|].
    constructor; [by left|constructor]. }
  destruct (http_get w meta) as [r|]; [|exact One].
  destruct (negb (status_code r =? 200)); [exact One|].
  destruct (json r) as [data|]; [|exact One].
  destruct (negb (bool_decide _)); [exact One|].
  set (url := py_or (data !! "hdurl") (data !! "url")).
  assert (Two : forall s',
    heap s ⊆ heap s' -> sent s' = (sent s ++ [meta]) ++ [mkRequest url ∅] ->
    heap s ⊆ heap s' /\
    exists reqs, sent s' = sent s ++ reqs /\ (length reqs <= 2)%nat /\
      Forall (fun rq => req_url rq = Some APOD_URL \/ req_params rq = ∅) reqs).
  { intros s' Hh ->. split; [done|]. exists [meta; mkRequest url ∅].
    split_and!; [by rewrite <- app_assoc|simpl; lia|].
    constructor; [by left|]. constructor; [by right|constructor]. }
  unfold bind. rewrite load_image_run. cbv zeta. simpl heap. simpl sent.
  destruct (http_get w (mkRequest url ∅)) as [r2|]; [|by apply Two].
  destruct (image_open w (content r2)) as [im|]; [|by apply Two].
  set (l := fresh (dom (heap s))).
  set (s2 := mkState (<[l := im]> (heap s)) ((sent s ++ [meta]) ++ [mkRequest url ∅])).
  destruct (render_footprint w settings (caption data) l im s2 (heap s))
    as [Hh Hs].
  - apply lookup_insert_eq.
  - apply insert_subseteq, fresh_heap_None.
  - apply fresh_heap_None.
  - destruct (render w settings (caption data) l s2) as [[c|e] s3]; by apply Two.
Qed.
End Generate2.

(** ** Targets and sources at the edges *)

Section StoreMore.
Context `{Pillow}.

Lemma thumbnail_result_raises (im : Image) (W Ht : Z) :
  proper im -> W <= 0 \/ Ht = 0 ->
  exists e, thumbnail_result im (W, Ht) = Raise e.
Proof.
  intros [Hw Hh] Hbad. unfold thumbnail_result, preserve_aspect_ratio. simpl.
  replace ((width im <=? W) && (height im <=? Ht)) with false
    by (symmetry; apply andb_false_iff; lia).
  destruct (height im =? 0) eqn:Eh; [lia|].
  destruct (Ht =? 0) eqn:Ey; [by eexists|].
  destruct (Qle_bool _ _) eqn:Hle.
  - destruct (Z_lt_le_dec Ht 1) as [?|Hpos].
    + destruct (decide _) as [E|_]; [injection E; lia|].
      unfold Image_resize. simpl.
      replace (Ht <? 1) with true by lia. rewrite orb_true_r. by eexists.
    + apply Qle_div_inject in Hle; [nia|lia..].
  - destruct (width im =? 0) eqn:Ew; [lia|].
    destruct (decide _) as [E|_]; [injection E; lia|].
    unfold Image_resize. simpl. replace (W <? 1) with true by lia. by eexists.
Qed.

(** X11.  A target of width zero or less, or of height zero, makes
    [resize_to_fit] raise for every proper image, and the caller's image is
    still what it was (a negative height alone does not make it raise: see
    the example below). *)
Theorem resize_to_fit_bad_target (s : State) (l : loc) (im : Image) (W Ht : Z) :
  heap s !! l = Some im -> proper im -> W <= 0 \/ Ht = 0 ->
  exists e, (resize_to_fit l (W, Ht) s).1 = Raise e /\
            heap (resize_to_fit l (W, Ht) s).2 !! l = Some im.
Proof.
  intros Hl Him Hbad.
  destruct (thumbnail_result_raises im W Ht Him Hbad) as [e He].
  exists e. rewrite resize_to_fit_run, Hl. simpl. rewrite He. simpl.
  split; [done|]. rewrite lookup_insert_ne; [done|].
  intros E. pose proof (fresh_heap_None s) as F. rewrite E in F. congruence.
Qed.

(** X14.  [fit_with_background] returns a canvas only for a target of
    positive width and height: with a width or a height of zero or less it
    raises, for every proper image and every background. *)
Theorem fit_with_background_bad_target
    (s : State) (l : loc) (im : Image) (W Ht : Z) (bg : Z * Z * Z) :
  heap s !! l = Some im -> proper im -> W <= 0 \/ Ht <= 0 ->
  exists e, (fit_with_background l (W, Ht) bg s).1 = Raise e.
Proof.
  intros Hl Him Hbad. rewrite fit_with_background_run, Hl. cbv zeta.
  destruct (thumbnail_result im (W, Ht)) as [r|e] eqn:Hr; [|by eexists].
  simpl. destruct ((W <? 0) || (Ht <? 0)) eqn:Hneg; [by eexists|].
  apply orb_false_elim in Hneg as [? ?].
  destruct (thumbnail_result_raises im W Ht Him ltac:(lia)) as [e He]. congruence.
Qed.

(** X12.  The image [resize_to_fit] returns fits the box, so a second
    [resize_to_fit] with the same box returns a copy of it, a new object
    with the same size and pixels, without resampling again. *)
Theorem resize_to_fit_idempotent (s : State) (l : loc) (im : Image) (W Ht : Z) :
  heap s !! l = Some im -> proper im -> 0 < W -> 0 < Ht ->
  exists l1 s1 l2 s2 r,
    resize_to_fit l (W, Ht) s = (Ok l1, s1) /\ heap s1 !! l1 = Some r /\
    resize_to_fit l1 (W, Ht) s1 = (Ok l2, s2) /\ heap s2 !! l2 = Some r /\
    l2 <> l1.
Proof.
  intros Hl Him HW HH.
  destruct (thumbnail_result_fits im W Ht Him HW HH)
    as (r & Hr & [? ?] & [? ?] & _).
  assert (Hagain : thumbnail_result r (W, Ht) = Ok r).
  { unfold thumbnail_result, preserve_aspect_ratio. simpl.
    replace ((width r <=? W) && (height r <=? Ht)) with true; [done|].
    symmetry. apply andb_true_intro. lia. }
  set (l1 := fresh (dom (heap s))).
  set (s1 := mkState (<[l1 := r]> (heap s)) (sent s)).
  set (l2 := fresh (dom (heap s1))).
  set (s2 := mkState (<[l2 := r]> (heap s1)) (sent s1)).
  assert (Hl1 : heap s1 !! l1 = Some r) by apply lookup_insert_eq.
  exists l1, s1, l2, s2, r. split_and!.
  - rewrite resize_to_fit_run, Hl. cbv zeta. by rewrite Hr.
  - done.
  - rewrite resize_to_fit_run, Hl1. cbv zeta. by rewrite Hagain.
  - apply lookup_insert_eq.
  - intros E. pose proof (fresh_heap_None s1) as F. fold l2 in F. congruence.
Qed.

(** X13.  An image that does not fit the box is shrunk by [resize_to_fit]
    just enough: the result has the width of the box or its height. *)
Theorem resize_to_fit_touches_box (s : State) (l : loc) (im : Image) (W Ht : Z) :
  heap s !! l = Some im -> proper im -> 0 < W -> 0 < Ht ->
  W < width im \/ Ht < height im ->
  exists l' s' r,
    resize_to_fit l (W, Ht) s = (Ok l', s') /\ heap s' !! l' = Some r /\
    (width r = W \/ height r = Ht).
Proof.
  intros Hl [Hw Hh] HW HH Hbig.
  rewrite resize_to_fit_run, Hl. cbv zeta.
  unfold thumbnail_result. simpl.
  destruct (preserve_aspect_ratio_fits (width im) (height im) W Ht Hw Hh HW HH)
    as (r & -> & Hfit).
  destruct Hfit as [? ? | x' Hnot [? ?] ? ? Habs | y' Hnot [? ?] ? ? Habs]; [lia|..].
  - destruct (decide (size im = (x', Ht))) as [E|E].
    + injection E as E1 E2. eexists _, _, im. split; [reflexivity|]. simpl.
      split; [apply lookup_insert_eq|lia].
    + unfold Image_resize. simpl.
      destruct ((x' <? 1) || (Ht <? 1)) eqn:Eb; [lia|].
      eexists _, _, _. split; [reflexivity|]. simpl.
      split; [apply lookup_insert_eq|]. simpl. lia.
  - destruct (decide (size im = (W, y'))) as [E|E].
    + injection E as E1 E2. eexists _, _, im. split; [reflexivity|]. simpl.
      split; [apply lookup_insert_eq|lia].
    + unfold Image_resize. simpl.
      destruct ((W <? 1) || (y' <? 1)) eqn:Eb; [lia|].
      eexists _, _, _. split; [reflexivity|]. simpl.
      split; [apply lookup_insert_eq|]. simpl. lia.
Qed.

(** X15.  A source that fits the box is not scaled by
    [fit_with_background]: the canvas has the target size, shows the source
    pixel for pixel at the centring offsets, and has the background colour
    (a colour of bytes) everywhere else. *)
Theorem fit_with_background_small_source
    (s : State) (l : loc) (im : Image) (W Ht : Z) (bg : Z * Z * Z) :
  heap s !! l = Some im -> proper im ->
  width im <= W -> height im <= Ht -> band_ok bg ->
  exists c s' canvas,
    fit_with_background l (W, Ht) bg s = (Ok c, s') /\
    heap s' !! c = Some canvas /\ size canvas = (W, Ht) /\
    let x := (W - width im) / 2 in
    let y := (Ht - height im) / 2 in
    forall i j,
      rgb_at canvas i j =
      if inside im (i - x) (j - y) then rgb_at im (i - x) (j - y) else bg.
Proof.
  intros Hl Him HW HH Hbg. pose proof Him as [Hw Hh].
  destruct (thumbnail_result_fits im W Ht Him ltac:(lia) ltac:(lia))
    as (r & Hr & _ & _ & _ & _ & Hsame & _).
  rewrite (Hsame HW HH) in Hr.
  rewrite fit_with_background_run, Hl. cbv zeta. rewrite Hr. simpl.
  replace ((W <? 0) || (Ht <? 0)) with false by (symmetry; apply orb_false_intro; lia).
  eexists _, _, (composed im (W, Ht) bg).
  split; [reflexivity|]. simpl. split; [apply lookup_insert_eq|].
  split; [reflexivity|]. intros i j. unfold rgb_at, composed. simpl.
  destruct (inside im _ _); simpl; [done|]. by apply rgb_ints_ink.
Qed.
End StoreMore.

(** A negative height is not looked at: the 10x10 image comes back 100x100. *)
Example resize_to_fit_negative_height :
  let run := @resize_to_fit gray 1%positive (100, -3) (one_image (gradient 10 10)) in
  run.1 = Ok 2%positive /\ size_at run.2 2%positive = Some (100, 100).
Proof. vm_compute. split; reflexivity. Qed.

(** ** The whole invocation, the query and the calendar *)

Section Generate3.
Context `{Pillow}.

(** X6.  With [autoResize] set to "true" [generate_image] draws the
    caption on a canvas of exactly the display's resolution: the image of
    the day resized into it and centred, the rest in the background colour,
    which is black or, with [autoBgColor] set to "true", the average border
    colour of the image as decoded. *)
Theorem image_of_the_day_resized
    (w : World) (settings : gmap string string) (s : State)
    (key : string) (params : gmap string string) (r r2 : Response)
    (data : gmap string string) (im : Image) (W Ht : Z) :
  load_env_key w "NASA_SECRET" = Some key -> key <> "" ->
  query_params w settings key = Ok params ->
  http_get w (mkRequest (Some APOD_URL) params) = Some r ->
  status_code r = 200 -> json r = Some data ->
  data !! "media_type" = Some "image" ->
  http_get w (mkRequest (py_or (data !! "hdurl") (data !! "url")) ∅) = Some r2 ->
  image_open w (content r2) = Some im -> proper im ->
  settings !! "autoResize" = Some "true" ->
  resolution w = (W, Ht) -> 0 < W -> 0 < Ht ->
  resized_outcome w settings s data im W Ht.
Proof.
  intros Hkey Hne Hparams Hget Hstatus Hjson Hmedia Hget2 Hopen Him Hon Hres HW HH.
  unfold resized_outcome.
  destruct (background_ok settings im Him) as (bg & Hbg & Hok).
  destruct (thumbnail_result_fits im W Ht Him HW HH) as (rz & Hrz & _).
  exists bg, rz.
  rewrite (generate_image_image w settings s key params r data) by done.
  unfold bind. rewrite load_image_run. cbv zeta. simpl heap. simpl sent.
  rewrite Hget2, Hopen.
  rewrite (render_resized w settings _ _ im) by (done || apply lookup_insert_eq).
  rewrite Hbg, Hres. cbv zeta. rewrite Hrz. simpl.
  replace ((W <? 0) || (Ht <? 0)) with false by (symmetry; apply orb_false_intro; lia).
  eexists _, _. split_and!; try done.
  - simpl. apply lookup_insert_eq.
  - intros i j Hout. unfold rgb_at, composed. simpl. rewrite Hout. simpl.
    by apply rgb_ints_ink.
Qed.

(** X8.  The query of the metadata request carries the key under
    "api_key" and, at most, a "date": no other parameter and no other
    setting is sent. *)
Theorem query_params_keys
    (w : World) (settings : gmap string string) (api_key : string)
    (params : gmap string string) :
  query_params w settings api_key = Ok params ->
  params !! "api_key" = Some api_key /\
  forall k, k <> "api_key" -> k <> "date" -> params !! k = None.
Proof.
  unfold query_params. intros Hq.
  assert (Hbase : forall d : string,
    (<["date" := d]> ({[ "api_key" := api_key ]} : gmap string string)) !! "api_key"
      = Some api_key /\
    forall k, k <> "api_key" -> k <> "date" ->
      (<["date" := d]> ({[ "api_key" := api_key ]} : gmap string string)) !! k = None).
  { intros d. split.
    - rewrite lookup_insert_ne by done. apply lookup_singleton_eq.
    - intros k H1 H2. rewrite lookup_insert_ne by done. by apply lookup_singleton_ne. }
  destruct (decide _).
  - destruct (randint _ _ _) as [k|]; [|done].
    destruct (add_days _ _) as [d|]; [|done]. injection Hq as <-. apply Hbase.
  - destruct (truthy _); injection Hq as <-; [apply Hbase|].
    split; [apply lookup_singleton_eq|]. intros k H1 _. by apply lookup_singleton_ne.
Qed.

(** X9.  With the clock before 2015-01-01 the range of offsets is empty:
    randomize makes [generate_image] raise [ValueError] before anything is
    requested. *)
Theorem randomize_before_2015
    (w : World) (settings : gmap string string) (s : State) (key : string) :
  load_env_key w "NASA_SECRET" = Some key -> key <> "" ->
  settings !! "randomizeApod" = Some "true" ->
  valid_date (dt_date (today w)) ->
  0 <= dt_micros (today w) < DAY_MICROS ->
  ~ date_le (dt_date START) (dt_date (today w)) ->
  generate_image w settings s = (Raise ValueError, s).
Proof.
  intros Hkey Hne Hflag Hvalid Hus Hbefore.
  assert (Hord : ymd2ord (dt_date (today w)) < ymd2ord (dt_date START)).
  { destruct (Z_lt_le_dec (ymd2ord (dt_date (today w))) (ymd2ord (dt_date START)))
      as [?|Hge]; [done|].
    exfalso. apply Hbefore. apply ymd2ord_date_le; [apply valid_START|done..]. }
  rewrite generate_image_run. cbv zeta. rewrite Hkey, (truthy_Some key Hne). simpl.
  unfold query_params. rewrite decide_True by done.
  rewrite (days_between_START _ Hus). unfold randint.
  replace (_ <? 0) with true by lia. done.
Qed.
End Generate3.

(** [start + timedelta(days=k)] and [(end - start).days] undo each other:
    the date [k] days after a date of the calendar is [k] days from it,
    whatever the time of day. *)
Lemma add_days_days_between (dt : datetime) (k : Z) :
  valid_date (dt_date dt) -> 0 <= dt_micros dt < DAY_MICROS ->
  0 <= k -> ymd2ord (dt_date dt) + k <= MAXORDINAL ->
  exists dt',
    add_days dt k = Ok dt' /\ valid_date (dt_date dt') /\
    dt_micros dt' = dt_micros dt /\ days_between dt' dt = k.
Proof.
  intros Hv Hus Hk Hmax. pose proof (ymd2ord_range _ Hv) as Hr.
  destruct (ord2ymd_inverse (ymd2ord (dt_date dt) + k) ltac:(lia)) as [Hvd Hinv].
  eexists. unfold add_days.
  replace ((0 <? ymd2ord (dt_date dt) + k) && (ymd2ord (dt_date dt) + k <=? MAXORDINAL))
    with true by (symmetry; apply andb_true_intro; lia).
  split; [reflexivity|]. cbn [dt_date dt_micros]. split_and!; [done..|].
  unfold days_between. cbn [dt_date dt_micros]. rewrite Hinv.
  replace (ymd2ord (dt_date dt) + k - ymd2ord (dt_date dt)) with k by lia.
  replace (dt_micros dt - dt_micros dt) with 0 by lia.
  rewrite Z.add_0_r. apply Z.div_mul. unfold DAY_MICROS. lia.
Qed.

(** A date of the calendar comes back from its ordinal. *)
Lemma ord2ymd_ymd2ord (d : date) : valid_date d -> ord2ymd (ymd2ord d) = d.
Proof.
  intros Hv. pose proof (ymd2ord_range d Hv) as Hr.
  destruct (ord2ymd_inverse (ymd2ord d) Hr) as [Hvd Hinv].
  apply date_le_antisym; apply ymd2ord_date_le; try done; lia.
Qed.

(** X10.  The caption is the empty string exactly when title and copyright
    are both missing or empty: whenever one of them is there, there is text
    to draw. *)
Theorem caption_empty_iff (data : gmap string string) :
  caption data = "" <-> absent (data !! "title") /\ absent (data !! "copyright").
Proof.
  unfold caption, absent.
  destruct (data !! "title") as [[|a t]|], (data !! "copyright") as [[|b c]|];
    simpl; split; try done; try (intros _; split; auto);
    try (intros [[?|?] [?|?]]; congruence).
Qed.

(** X2.  A failure of the metadata request itself is not caught: the
    transport's exception leaves [generate_image] as it is, not as the
    plugin's error, after the one request. *)
Theorem metadata_transport_failure `{Pillow}
    (w : World) (settings : gmap string string) (s : State)
    (key : string) (params : gmap string string) :
  load_env_key w "NASA_SECRET" = Some key -> key <> "" ->
  query_params w settings key = Ok params ->
  http_get w (mkRequest (Some APOD_URL) params) = None ->
  generate_image w settings s =
  (Raise RequestException,
   mkState (heap s) (sent s ++ [mkRequest (Some APOD_URL) params])).
Proof.
  intros Hkey Hne Hparams Hget.
  rewrite generate_image_run. cbv zeta.
  rewrite Hkey, (truthy_Some key Hne). simpl. by rewrite Hparams, Hget.
Qed.

(** ** The settings template *)

(** X20.  Whatever the base plugin's template holds, also under the two
    keys themselves, the template of [generate_settings_template] requires
    the NASA key, switches the style settings off and passes every other
    entry of the base on unchanged. *)
Theorem settings_template_entries (base : gmap string PyValue) :
  let t := generate_settings_template base in
  t !! "api_key" =
    Some (PyDict [("required", PyBool true); ("service", PyStr "NASA");
                  ("expected_key", PyStr "NASA_SECRET")]) /\
  t !! "style_settings" = Some (PyAtomic (PyBool false)) /\
  (forall k, k <> "api_key" -> k <> "style_settings" -> t !! k = base !! k).
Proof.
  intros t. subst t. unfold generate_settings_template. cbv zeta. split_and!.
  - rewrite lookup_insert_ne by done. apply lookup_insert_eq.
  - apply lookup_insert_eq.
  - intros k H1 H2. by rewrite !lookup_insert_ne by done.
Qed.

(** ** The properties above at concrete inputs *)

Lemma no_key_no_request_witness :
  generate_image keyless_world ∅ (one_image (white 5 5)) =
  (Raise (RuntimeError "NASA API Key not configured."), one_image (white 5 5)).
Proof.
  assert (H1 : absent (load_env_key keyless_world "NASA_SECRET")) by (left; reflexivity).
  exact (no_key_no_request keyless_world ∅ (one_image (white 5 5)) H1).
Defined.

Lemma bad_status_aborts_witness :
  generate_image (demo_world (mkResponse 503 None [])) ∅ (one_image (white 5 5)) =
  (Raise (RuntimeError "Failed to retrieve NASA APOD."),
   mkState (heap (one_image (white 5 5)))
     (sent (one_image (white 5 5)) ++ [mkRequest (Some APOD_URL) key_params])).
Proof.
  assert (H1 : load_env_key (demo_world (mkResponse 503 None [])) "NASA_SECRET"
               = Some "DEMO_KEY") by reflexivity.
  assert (H2 : "DEMO_KEY" <> "") by discriminate.
  assert (H3 : query_params (demo_world (mkResponse 503 None [])) ∅ "DEMO_KEY"
               = Ok key_params) by reflexivity.
  assert (H4 : http_get (demo_world (mkResponse 503 None []))
                 (mkRequest (Some APOD_URL) key_params)
               = Some (mkResponse 503 None [])) by reflexivity.
  assert (H5 : status_code (mkResponse 503 None []) <> 200) by (simpl; lia).
  exact (bad_status_aborts _ ∅ (one_image (white 5 5)) _ _ _ H1 H2 H3 H4 H5).
Defined.

Lemma metadata_transport_failure_witness :
  generate_image offline_world ∅ (one_image (white 5 5)) =
  (Raise RequestException,
   mkState (heap (one_image (white 5 5)))
     (sent (one_image (white 5 5)) ++ [mkRequest (Some APOD_URL) key_params])).
Proof.
  assert (H1 : load_env_key offline_world "NASA_SECRET" = Some "DEMO_KEY") by reflexivity.
  assert (H2 : "DEMO_KEY" <> "") by discriminate.
  assert (H3 : query_params offline_world ∅ "DEMO_KEY" = Ok key_params) by reflexivity.
  assert (H4 : http_get offline_world (mkRequest (Some APOD_URL) key_params) = None)
    by reflexivity.
  exact (metadata_transport_failure _ ∅ (one_image (white 5 5)) _ _ H1 H2 H3 H4).
Defined.

Lemma image_load_failure_witness :
  load_failure_outcome (demo_world image_of_the_day) ∅ (one_image (white 5 5))
    key_params image_data.
Proof.
  assert (H1 : load_env_key (demo_world image_of_the_day) "NASA_SECRET"
               = Some "DEMO_KEY") by reflexivity.
  assert (H2 : "DEMO_KEY" <> "") by discriminate.
  assert (H3 : query_params (demo_world image_of_the_day) ∅ "DEMO_KEY" = Ok key_params)
    by reflexivity.
  assert (H4 : http_get (demo_world image_of_the_day)
                 (mkRequest (Some APOD_URL) key_params)
               = Some image_of_the_day) by reflexivity.
  assert (H5 : status_code image_of_the_day = 200) by reflexivity.
  assert (H6 : json image_of_the_day = Some image_data) by reflexivity.
  assert (H7 : image_data !! "media_type" = Some "image") by reflexivity.
  assert (H8 : forall r2,
             http_get (demo_world image_of_the_day)
               (mkRequest (py_or (image_data !! "hdurl") (image_data !! "url")) ∅)
             = Some r2 ->
             image_open (demo_world image_of_the_day) (content r2) = None)
    by (intros; reflexivity).
  exact (image_load_failure _ ∅ (one_image (white 5 5)) _ _ _ _
           H1 H2 H3 H4 H5 H6 H7 H8).
Defined.

Lemma image_of_the_day_plain_witness :
  let l := fresh (dom (heap (one_image (white 5 5)))) in
  let bbox := textbbox image_world (caption image_data) in
  generate_image image_world ∅ (one_image (white 5 5)) =
  (Ok l,
   mkState
     (<[l := draw_text image_world (gradient 1600 400)
              (width (gradient 1600 400) - (bbox.1.2 - bbox.1.1.1) - 15,
               height (gradient 1600 400) - (bbox.2 - bbox.1.1.2) - 15)
              (caption image_data)]> (heap (one_image (white 5 5))))
     (sent (one_image (white 5 5)) ++
      [mkRequest (Some APOD_URL) key_params;
       mkRequest (py_or (image_data !! "hdurl") (image_data !! "url")) ∅])) /\
  heap (one_image (white 5 5)) !! l = None.
Proof.
  assert (H1 : load_env_key image_world "NASA_SECRET" = Some "DEMO_KEY") by reflexivity.
  assert (H2 : "DEMO_KEY" <> "") by discriminate.
  assert (H3 : query_params image_world ∅ "DEMO_KEY" = Ok key_params) by reflexivity.
  assert (H4 : http_get image_world (mkRequest (Some APOD_URL) key_params)
               = Some image_of_the_day) by reflexivity.
  assert (H5 : status_code image_of_the_day = 200) by reflexivity.
  assert (H6 : json image_of_the_day = Some image_data) by reflexivity.
  assert (H7 : image_data !! "media_type" = Some "image") by reflexivity.
  assert (H8 : http_get image_world
                 (mkRequest (py_or (image_data !! "hdurl") (image_data !! "url")) ∅)
               = Some image_bytes) by reflexivity.
  assert (H9 : image_open image_world (content image_bytes) = Some (gradient 1600 400))
    by reflexivity.
  assert (H10 : (∅ : gmap string string) !! "autoResize" <> Some "true") by discriminate.
  exact (image_of_the_day_plain image_world ∅ (one_image (white 5 5)) _ _ _ _ _ _
           H1 H2 H3 H4 H5 H6 H7 H8 H9 H10).
Defined.

Lemma image_of_the_day_resized_witness :
  resized_outcome image_world resize_settings (one_image (white 5 5))
    image_data (gradient 1600 400) 800 480.
Proof.
  assert (H1 : load_env_key image_world "NASA_SECRET" = Some "DEMO_KEY") by reflexivity.
  assert (H2 : "DEMO_KEY" <> "") by discriminate.
  assert (H3 : query_params image_world resize_settings "DEMO_KEY" = Ok key_params)
    by reflexivity.
  assert (H4 : http_get image_world (mkRequest (Some APOD_URL) key_params)
               = Some image_of_the_day) by reflexivity.
  assert (H5 : status_code image_of_the_day = 200) by reflexivity.
  assert (H6 : json image_of_the_day = Some image_data) by reflexivity.
  assert (H7 : image_data !! "media_type" = Some "image") by reflexivity.
  assert (H8 : http_get image_world
                 (mkRequest (py_or (image_data !! "hdurl") (image_data !! "url")) ∅)
               = Some image_bytes) by reflexivity.
  assert (H9 : image_open image_world (content image_bytes) = Some (gradient 1600 400))
    by reflexivity.
  assert (H10 : proper (gradient 1600 400)) by (split; simpl; lia).
  assert (H11 : resize_settings !! "autoResize" = Some "true") by reflexivity.
  assert (H12 : resolution image_world = (800, 480)) by reflexivity.
  assert (H13 : 0 < 800) by lia.
  assert (H14 : 0 < 480) by lia.
  exact (image_of_the_day_resized image_world resize_settings (one_image (white 5 5))
           _ _ _ _ _ _ 800 480 H1 H2 H3 H4 H5 H6 H7 H8 H9 H10 H11 H12 H13 H14).
Defined.

(** The same invocation, evaluated: the 1600x400 image becomes 800x200 on
    the 800x480 canvas, whose margin has the image's average border
    colour. *)
Example image_of_the_day_resized_run :
  let run := @generate_image gray image_world resize_settings (one_image (white 5 5)) in
  run.1 = Ok 4%positive /\
  size_at run.2 3%positive = Some (800, 200) /\
  size_at run.2 4%positive = Some (800, 480) /\
  rgb_ints <$> colour_at run.2 4%positive 0 0
    = match @average_border_color gray (gradient 1600 400) 10 with
      | Ok c => Some c
      | Raise _ => None
      end.
Proof. vm_compute. repeat split. Qed.

Lemma query_params_keys_witness :
  (<["date" := "2024-05-01"]> key_params : gmap string string) !! "api_key"
    = Some "DEMO_KEY" /\
  forall k, k <> "api_key" -> k <> "date" ->
    (<["date" := "2024-05-01"]> key_params : gmap string string) !! k = None.
Proof.
  assert (H1 : query_params (demo_world video_of_the_day) flag_off_settings "DEMO_KEY"
               = Ok (<["date" := "2024-05-01"]> key_params)) by reflexivity.
  exact (query_params_keys _ _ _ _ H1).
Defined.

Lemma randomize_before_2015_witness :
  generate_image early_world randomize_settings (one_image (white 5 5)) =
  (Raise ValueError, one_image (white 5 5)).
Proof.
  assert (H1 : load_env_key early_world "NASA_SECRET" = Some "DEMO_KEY") by reflexivity.
  assert (H2 : "DEMO_KEY" <> "") by discriminate.
  assert (H3 : randomize_settings !! "randomizeApod" = Some "true") by reflexivity.
  assert (H4 : valid_date (dt_date (today early_world)))
    by (unfold valid_date; vm_compute; intuition discriminate).
  assert (H5 : 0 <= dt_micros (today early_world) < DAY_MICROS)
    by (vm_compute; intuition discriminate).
  assert (H6 : ~ date_le (dt_date START) (dt_date (today early_world)))
    by (unfold date_le; simpl; lia).
  exact (randomize_before_2015 early_world randomize_settings (one_image (white 5 5))
           _ H1 H2 H3 H4 H5 H6).
Defined.


Lemma resize_to_fit_bad_target_witness :
  exists e,
    (resize_to_fit 1%positive (0, 5) (one_image (gradient 10 10))).1 = Raise e /\
    heap (resize_to_fit 1%positive (0, 5) (one_image (gradient 10 10))).2 !! 1%positive
      = Some (gradient 10 10).
Proof.
  assert (H1 : heap (one_image (gradient 10 10)) !! 1%positive = Some (gradient 10 10))
    by reflexivity.
  assert (H2 : proper (gradient 10 10)) by (split; simpl; lia).
  assert (H3 : 0 <= 0 \/ 5 = 0) by (left; lia).
  exact (resize_to_fit_bad_target _ _ _ 0 5 H1 H2 H3).
Defined.

Lemma fit_with_background_bad_target_witness :
  exists e,
    (fit_with_background 1%positive (5, -3) (0, 0, 0) (one_image (gradient 10 10))).1
    = Raise e.
Proof.
  assert (H1 : heap (one_image (gradient 10 10)) !! 1%positive = Some (gradient 10 10))
    by reflexivity.
  assert (H2 : proper (gradient 10 10)) by (split; simpl; lia).
  assert (H3 : 5 <= 0 \/ -3 <= 0) by (right; lia).
  exact (fit_with_background_bad_target _ _ _ 5 (-3) (0, 0, 0) H1 H2 H3).
Defined.

Lemma resize_to_fit_idempotent_witness :
  exists l1 s1 l2 s2 r,
    resize_to_fit 1%positive (200, 200) (one_image (gradient 400 100)) = (Ok l1, s1) /\
    heap s1 !! l1 = Some r /\
    resize_to_fit l1 (200, 200) s1 = (Ok l2, s2) /\ heap s2 !! l2 = Some r /\
    l2 <> l1.
Proof.
  assert (H1 : heap (one_image (gradient 400 100)) !! 1%positive = Some (gradient 400 100))
    by reflexivity.
  assert (H2 : proper (gradient 400 100)) by (split; simpl; lia).
  assert (H3 : 0 < 200) by lia.
  exact (resize_to_fit_idempotent _ _ _ 200 200 H1 H2 H3 H3).
Defined.

Lemma resize_to_fit_touches_box_witness :
  exists l' s' r,
    resize_to_fit 1%positive (200, 200) (one_image (gradient 400 100)) = (Ok l', s') /\
    heap s' !! l' = Some r /\ (width r = 200 \/ height r = 200).
Proof.
  assert (H1 : heap (one_image (gradient 400 100)) !! 1%positive = Some (gradient 400 100))
    by reflexivity.
  assert (H2 : proper (gradient 400 100)) by (split; simpl; lia).
  assert (H3 : 0 < 200) by lia.
  assert (H4 : 200 < width (gradient 400 100) \/ 200 < height (gradient 400 100))
    by (left; simpl; lia).
  exact (resize_to_fit_touches_box _ _ _ 200 200 H1 H2 H3 H3 H4).
Defined.

Lemma fit_with_background_small_source_witness :
  exists c s' canvas,
    fit_with_background 1%positive (9, 5) (10, 20, 30) (one_image (gradient 4 2))
      = (Ok c, s') /\
    heap s' !! c = Some canvas /\ size canvas = (9, 5) /\
    let x := (9 - width (gradient 4 2)) / 2 in
    let y := (5 - height (gradient 4 2)) / 2 in
    forall i j,
      rgb_at canvas i j =
      if inside (gradient 4 2) (i - x) (j - y)
      then rgb_at (gradient 4 2) (i - x) (j - y) else (10, 20, 30).
Proof.
  assert (H1 : heap (one_image (gradient 4 2)) !! 1%positive = Some (gradient 4 2))
    by reflexivity.
  assert (H2 : proper (gradient 4 2)) by (split; simpl; lia).
  assert (H3 : width (gradient 4 2) <= 9) by (simpl; lia).
  assert (H4 : height (gradient 4 2) <= 5) by (simpl; lia).
  assert (H5 : band_ok (10, 20, 30)) by (unfold band_ok; simpl; lia).
  exact (fit_with_background_small_source _ _ _ 9 5 (10, 20, 30) H1 H2 H3 H4 H5).
Defined.

Lemma sample_count_witness :
  Z.of_nat (length (sampled_pixels (gradient 6 4) 2))
  = 2 * 2 * (width (gradient 6 4) + height (gradient 6 4)).
Proof.
  assert (H1 : 0 <= 2) by lia.
  assert (H2 : 0 <= width (gradient 6 4)) by (simpl; lia).
  assert (H3 : 0 <= height (gradient 6 4)) by (simpl; lia).
  exact (sample_count (gradient 6 4) 2 H1 H2 H3).
Defined.

Lemma average_border_color_total_witness :
  exists c, average_border_color (white 5 5) 10 = Ok c /\ band_ok c.
Proof.
  assert (H1 : 0 < 10) by lia.
  assert (H2 : proper (white 5 5)) by (split; simpl; lia).
  exact (average_border_color_total (white 5 5) 10 H1 H2).
Defined.

Lemma average_border_color_no_border_witness :
  average_border_color (white 5 5) 0 = Raise TypeError.
Proof.
  assert (H1 : 0 <= 0) by lia.
  exact (average_border_color_no_border (white 5 5) 0 H1).
Defined.

Lemma average_border_color_uniform_witness :
  average_border_color framed 2 = Ok (rgb_ints (x10, x10, x10)).
Proof.
  assert (H1 : 0 < 2) by lia.
  assert (H2 : 2 <= Z.min (width framed) (height framed)) by (simpl; lia).
  assert (H3 : forall x y, in_border (width framed) (height framed) 2 x y ->
                 rgb_of (getpixel framed x y) = (x10, x10, x10)).
  { intros x y (Hx & Hy & Hb). simpl in *.
    destruct ((2 <=? x) && (x <? 4) && (2 <=? y) && (y <? 4)) eqn:E; [lia|done]. }
  exact (average_border_color_uniform framed 2 (x10, x10, x10) H1 H2 H3).
Defined.
